(** * marshaler/logger.go: the multi-line HTTP logger

    A shallow embedding of [MultilineLogger], of the request-body wrapper
    [multilineLoggerReadCloser] and of the response-writer wrapper
    [multilineLoggerResponseWriter], with the properties of the log they
    produce.

    Go strings are byte strings ([string]); a [[]byte] is a [list byte];
    Go's [int] is [Z].  The collaborators the logger is handed (the log
    sink, the request body, the response writer, the wrapped handler) are
    not code of this package: every call made on them is recorded, in
    order, in the [events] of a [World], and what they answer is a function
    of the world at the time of the call. *)

From Stdlib Require Import ZArith Ascii String DecimalString.
From Stdlib.Strings Require Import Byte.
From stdpp Require Import base list strings gmap.

Local Open Scope Z_scope.
Local Open Scope string_scope.
Local Open Scope list_scope.

(** ** Strings and bytes *)

(** The line feed, ['\n']. *)
Definition LF : ascii := ascii_of_nat 10.
Definition LF_byte : byte := x0a.
Definition newline : string := String LF "".

#[global] Instance byte_eq_decision : EqDecision byte := Byte.byte_eq_dec.

(** Go's conversion [string(p)]. *)
Definition string_of_bytes (p : list byte) : string := string_of_list_byte p.

(** ** Package fmt, as far as this file uses it *)

Module fmt.

(** An operand of a print call: here always a string (a [RequestID] is a
    string type) or an [int]. *)
Inductive operand : Type :=
| Str (s : string)
| Int (z : Z).

Definition is_Str (a : operand) : bool :=
  match a with Str _ => true | Int _ => false end.

(** [%d] on an int. *)
Definition decimal (z : Z) : string := NilZero.string_of_int (Z.to_int z).

(** The default format [%v] of an operand. *)
Definition value (a : operand) : string :=
  match a with
  | Str s => s
  | Int z => decimal z
  end.

(** The name fmt prints for the operand's type in a diagnostic (a named
    string type such as [RequestID] prints its own name there; no format of
    this package reaches a diagnostic). *)
Definition type_name (a : operand) : string :=
  match a with Str _ => "string" | Int _ => "int" end.

(** What fmt prints for a verb that does not fit its operand:
    [%!verb(type=value)]. *)
Definition bad_verb (c : ascii) (a : operand) : string :=
  "%!" +:+ String c ("(" +:+ type_name a +:+ "=" +:+ value a +:+ ")").

(** One verb applied to one operand: [%s] and [%v] print a string as it
    is, [%d] and [%v] print an int in decimal. *)
Definition verb (c : ascii) (a : operand) : string :=
  match a with
  | Str s => if bool_decide (c = "s"%char) || bool_decide (c = "v"%char)
             then s else bad_verb c a
  | Int z => if bool_decide (c = "d"%char) || bool_decide (c = "v"%char)
             then decimal z else bad_verb c a
  end.

(** Operands left over when the format is exhausted:
    [%!(EXTRA type=value, ...)]. *)
Fixpoint extra_list (v : list operand) : string :=
  match v with
  | [] => ""
  | [a] => type_name a +:+ "=" +:+ value a
  | a :: v' => type_name a +:+ "=" +:+ value a +:+ ", " +:+ extra_list v'
  end.

Definition extra (v : list operand) : string :=
  match v with
  | [] => ""
  | _ => "%!(EXTRA " +:+ extra_list v +:+ ")"
  end.

(** [fmt.Sprintf] for formats made of literal text, [%%] and the plain
    verbs [%s], [%d], [%v] (no flags, width or precision: the formats of
    this package have none). *)
Fixpoint Sprintf (format : string) (v : list operand) : string :=
  match format with
  | "" => extra v
  | String "%" "" => "%!(NOVERB)" +:+ extra v
  | String "%" (String "%" rest) => String "%" (Sprintf rest v)
  | String "%" (String c rest) =>
      match v with
      | [] => "%!" +:+ String c "(MISSING)" +:+ Sprintf rest []
      | a :: v' => verb c a +:+ Sprintf rest v'
      end
  | String c rest => String c (Sprintf rest v)
  end.

(** [fmt.Sprint]: the operands in their default format, a space between
    two operands when neither is a string. *)
Fixpoint Sprint (v : list operand) : string :=
  match v with
  | [] => ""
  | [a] => value a
  | a :: ((b :: _) as v') =>
      value a +:+ (if is_Str a || is_Str b then "" else " ") +:+ Sprint v'
  end.

(** [fmt.Sprintln]: the operands in their default format, always a space
    between two operands, and a line feed at the end. *)
Fixpoint Sprintln (v : list operand) : string :=
  match v with
  | [] => newline
  | [a] => value a +:+ newline
  | a :: v' => value a +:+ " " +:+ Sprintln v'
  end.

End fmt.

(** ** The world outside the package *)

(** A Go [error] value, known by the text of its [Error] method; the nil
    error is [None] of [option error]. *)
Record error : Type := errorString { Error : string }.

(** A call made on a collaborator. *)
Inductive event : Type :=
| LoggerOutput (calldepth : Z) (s : string)  (* Output on the wrapped Logger *)
| BodyRead (p : list byte)                   (* Read on the original r.Body *)
| BodyClose                                  (* Close on the original r.Body *)
| WriterWriteHeader (code : Z)               (* WriteHeader on the original w *)
| WriterWrite (p : list byte)                (* Write on the original w *)
| WriterFlush.                               (* Flush on the original w *)

(** The calls made so far, oldest first, and the header map of the original
    response writer (what its [Header] method returns; the handler fills
    it). *)
Record World : Type := mkWorld {
  events : list event;
  response_header : gmap string (list string);
}.

Definition record (e : event) (w : World) : World :=
  mkWorld (events w ++ [e]) (response_header w).

(** The result of running Go code: a value, or a run-time panic. *)
Inductive outcome (A : Type) : Type :=
| Ok (a : A)
| Panic.
Arguments Ok {A} a.
Arguments Panic {A}.

(** Code with effects on the world. *)
Definition M (A : Type) : Type := World -> outcome A * World.

#[global] Instance M_ret : MRet M := fun A a w => (Ok a, w).

#[global] Instance M_bind : MBind M := fun A B f m w =>
  match m w with
  | (Ok a, w') => f a w'
  | (Panic, w') => (Panic, w')
  end.

Definition panic {A : Type} : M A := fun w => (Panic, w).

(** The world a computation leaves, and the events it added. *)
Definition world_after {A : Type} (m : M A) (w : World) : World := snd (m w).
Definition result_of {A : Type} (m : M A) (w : World) : outcome A := fst (m w).

(** A [for ... range] loop over a slice. *)
Fixpoint for_each {A : Type} (l : list A) (body : A -> M unit) : M unit :=
  match l with
  | [] => mret tt
  | x :: l' => body x;; for_each l' body
  end.

(** The slice expression [p[:n]]; the capacity of [p] is taken to be its
    length, so cutting beyond it panics. *)
Definition slice_to (p : list byte) (n : Z) : M (list byte) :=
  if bool_decide (0 <= n <= Z.of_nat (length p))
  then mret (take (Z.to_nat n) p)
  else panic.

(** *** The interfaces the package is handed *)

(** The [Logger] interface; the package calls only [Output] on the logger
    it wraps. *)
Record Logger : Type := {
  Logger_Output_result : World -> Z -> string -> option error;
}.

Definition Logger_Output (lg : Logger) (calldepth : Z) (s : string)
  : M (option error) :=
  fun w => (Ok (Logger_Output_result lg w calldepth s),
            record (LoggerOutput calldepth s) w).

(** [io.ReadCloser]: [Read] answers the buffer as it left it, the count and
    the error. *)
Record io_ReadCloser : Type := {
  Read_result : World -> list byte -> list byte * Z * option error;
  Close_result : World -> option error;
}.

Definition ReadCloser_Read (rc : io_ReadCloser) (p : list byte)
  : M (list byte * Z * option error) :=
  fun w => (Ok (Read_result rc w p), record (BodyRead p) w).

Definition ReadCloser_Close (rc : io_ReadCloser) : M (option error) :=
  fun w => (Ok (Close_result rc w), record BodyClose w).

(** [http.ResponseWriter]; [is_Flusher] tells whether the dynamic type also
    implements [http.Flusher]. *)
Record http_ResponseWriter : Type := {
  Write_result : World -> list byte -> Z * option error;
  is_Flusher : bool;
}.

Definition ResponseWriter_Header (rw : http_ResponseWriter)
  : M (gmap string (list string)) :=
  fun w => (Ok (response_header w), w).

Definition ResponseWriter_Write (rw : http_ResponseWriter) (p : list byte)
  : M (Z * option error) :=
  fun w => (Ok (Write_result rw w p), record (WriterWrite p) w).

Definition ResponseWriter_WriteHeader (rw : http_ResponseWriter) (code : Z)
  : M unit :=
  fun w => (Ok tt, record (WriterWriteHeader code) w).

(** An [http.Flusher] interface value: nil, or an object with a [Flush]
    method. *)
Definition http_Flusher : Type := option (M unit).

(** A method call on an interface value: on nil it panics. *)
Definition Flusher_Flush (f : http_Flusher) : M unit :=
  match f with
  | Some flush => flush
  | None => panic
  end.

(** The type assertion [rw.(http.Flusher)] in its two-result form. *)
Definition as_Flusher (rw : http_ResponseWriter) : http_Flusher * bool :=
  if is_Flusher rw
  then (Some (fun w => (Ok tt, record WriterFlush w)), true)
  else (None, false).

(** [url.URL], known by what its [RequestURI] method returns. *)
Record url_URL : Type := { RequestURI : string }.

(** The fields of [http.Request] the package reads. *)
Record http_Request : Type := {
  Method : string;
  URL : url_URL;
  Proto : string;
  Header : gmap string (list string);
  Body : io_ReadCloser;
}.

(** What a handler does with the response writer and the request body it
    is given, each step continuing with what the call answered. *)
Inductive http_Handler : Type :=
| Return
| DoRead (p : list byte) (k : list byte -> Z -> option error -> http_Handler)
| DoClose (k : option error -> http_Handler)
| DoSetHeader (f : gmap string (list string) -> gmap string (list string))
    (k : http_Handler)
| DoWriteHeader (code : Z) (k : http_Handler)
| DoWrite (p : list byte) (k : Z -> option error -> http_Handler)
| DoFlush (k : http_Handler).

(** What the package takes from the Go runtime and from net/http: the
    order in which [range] walks a header map (not specified by the
    language, and free to differ from one loop to the next) and the table
    [http.StatusText]. *)
Class GoRuntime : Type := {
  range_Header : World -> gmap string (list string) -> list (string * list string);
  StatusText : Z -> string;
}.

Definition StatusOK : Z := 200.

(** ** The package *)

Definition Redactor : Type := string -> string.
Definition RequestID : Type := string.

(** A [RequestIDCreator]; the default one draws a random identifier, so
    its answer may depend on the world. *)
Definition RequestIDCreator : Type := World -> http_Request -> RequestID.

(** [MultilineLogger]. A nil [redactor] is [None]; [handler] gives what the
    wrapped handler does for a request. *)
Record MultilineLogger : Type := {
  Logger_ : Logger;
  handler : http_Request -> http_Handler;
  redactor : option Redactor;
  RequestIDCreator_ : RequestIDCreator;
}.

(** [Logged], with the logger it would create and the default identifier
    creator passed in. *)
Definition Logged (stdout : Logger) (requestIDCreator : RequestIDCreator)
    (handler : http_Request -> http_Handler) (redactor : option Redactor)
  : MultilineLogger :=
  {| Logger_ := stdout;
     handler := handler;
     redactor := redactor;
     RequestIDCreator_ := requestIDCreator |}.

(** [Output]: the redactor first, when there is one. *)
Definition Output (l : MultilineLogger) (calldepth : Z) (s : string)
  : M (option error) :=
  let s := match redactor l with
           | Some redact => redact s
           | None => s
           end in
  Logger_Output (Logger_ l) calldepth s.

Definition Print (l : MultilineLogger) (v : list fmt.operand) : M unit :=
  Output l 2 (fmt.Sprint v);; mret tt.

Definition Printf (l : MultilineLogger) (format : string) (v : list fmt.operand)
  : M unit :=
  Output l 2 (fmt.Sprintf format v);; mret tt.

Definition Println (l : MultilineLogger) (v : list fmt.operand) : M unit :=
  Output l 2 (fmt.Sprintln v);; mret tt.

(** [multilineLoggerReadCloser]. *)
Record multilineLoggerReadCloser : Type := {
  rc_ReadCloser : io_ReadCloser;
  rc_MultilineLogger : MultilineLogger;
  rc_requestID : RequestID;
}.

Definition Read (r : multilineLoggerReadCloser) (p : list byte)
  : M (list byte * Z * option error) :=
  '(p, n, err) ← ReadCloser_Read (rc_ReadCloser r) p;
  (if bool_decide (0 < n)
   then chunk ← slice_to p n;
        Println (rc_MultilineLogger r)
          [fmt.Str (rc_requestID r); fmt.Str ">"; fmt.Str (string_of_bytes chunk)]
   else mret tt);;
  mret (p, n, err).

(** [Close] is the embedded [io.ReadCloser]'s. *)
Definition Close (r : multilineLoggerReadCloser) : M (option error) :=
  ReadCloser_Close (rc_ReadCloser r).

(** [multilineLoggerResponseWriter]. *)
Record multilineLoggerResponseWriter : Type := {
  rw_Flusher : http_Flusher;
  rw_ResponseWriter : http_ResponseWriter;
  rw_MultilineLogger : MultilineLogger;
  rw_request : http_Request;
  rw_requestID : RequestID;
  rw_wroteHeader : bool;
}.

Definition set_wroteHeader (b : bool) (w : multilineLoggerResponseWriter)
  : multilineLoggerResponseWriter :=
  {| rw_Flusher := rw_Flusher w;
     rw_ResponseWriter := rw_ResponseWriter w;
     rw_MultilineLogger := rw_MultilineLogger w;
     rw_request := rw_request w;
     rw_requestID := rw_requestID w;
     rw_wroteHeader := b |}.

Definition Flush (w : multilineLoggerResponseWriter) : M unit :=
  let '(f, ok) := as_Flusher (rw_ResponseWriter w) in
  if ok then Flusher_Flush f else mret tt.

Section Package.
Context {rt : GoRuntime}.

(** The loop [for name, values := range h { for _, value := range values
    { body name value } }]. *)
Definition range_values (h : gmap string (list string))
    (body : string -> string -> M unit) : M unit :=
  fun w =>
    for_each (range_Header w h)
      (fun '(name, values) => for_each values (body name)) w.

(** The methods have pointer receivers: each returns the wrapper as it
    leaves it. *)
Definition WriteHeader (w : multilineLoggerResponseWriter) (code : Z)
  : M multilineLoggerResponseWriter :=
  let w := set_wroteHeader true w in
  Printf (rw_MultilineLogger w) "%s < %s %d %s"
    [fmt.Str (rw_requestID w); fmt.Str (Proto (rw_request w)); fmt.Int code;
     fmt.Str (StatusText code)];;
  h ← ResponseWriter_Header (rw_ResponseWriter w);
  range_values h (fun name value =>
    Printf (rw_MultilineLogger w) "%s < %s: %s"
      [fmt.Str (rw_requestID w); fmt.Str name; fmt.Str value]);;
  Println (rw_MultilineLogger w) [fmt.Str (rw_requestID w); fmt.Str "<"];;
  ResponseWriter_WriteHeader (rw_ResponseWriter w) code;;
  mret w.

Definition Write (w : multilineLoggerResponseWriter) (p : list byte)
  : M (multilineLoggerResponseWriter * (Z * option error)) :=
  w ← (if negb (rw_wroteHeader w) then WriteHeader w StatusOK else mret w);
  (if bool_decide (0 < length p)%nat
      && bool_decide (p !! (length p - 1)%nat = Some LF_byte)
   then Println (rw_MultilineLogger w)
          [fmt.Str (rw_requestID w); fmt.Str "<";
           fmt.Str (string_of_bytes (take (length p - 1) p))]
   else Println (rw_MultilineLogger w)
          [fmt.Str (rw_requestID w); fmt.Str "<"; fmt.Str (string_of_bytes p)]);;
  res ← ResponseWriter_Write (rw_ResponseWriter w) p;
  mret (w, res).

(** The handler at work on the two wrappers [ServeHTTP] hands it. *)
Fixpoint run_handler (h : http_Handler) (body : multilineLoggerReadCloser)
    (w : multilineLoggerResponseWriter) : M unit :=
  match h with
  | Return => mret tt
  | DoRead p k =>
      '(p', n, err) ← Read body p; run_handler (k p' n err) body w
  | DoClose k =>
      err ← Close body; run_handler (k err) body w
  | DoSetHeader f k =>
      (fun wd => (Ok tt, mkWorld (events wd) (f (response_header wd))));;
      run_handler k body w
  | DoWriteHeader code k =>
      w' ← WriteHeader w code; run_handler k body w'
  | DoWrite p k =>
      '(w', (n, err)) ← Write w p; run_handler (k n err) body w'
  | DoFlush k =>
      Flush w;; run_handler k body w
  end.

Definition ServeHTTP (l : MultilineLogger) (w : http_ResponseWriter)
    (r : http_Request) : M unit :=
  requestID ← (fun wd => (Ok (RequestIDCreator_ l wd r), wd));
  Printf l "%s > %s %s %s"
    [fmt.Str requestID; fmt.Str (Method r); fmt.Str (RequestURI (URL r));
     fmt.Str (Proto r)];;
  range_values (Header r) (fun key value =>
    Printf l "%s > %s: %s" [fmt.Str requestID; fmt.Str key; fmt.Str value]);;
  Println l [fmt.Str requestID; fmt.Str ">"];;
  run_handler (handler l r)
    {| rc_ReadCloser := Body r;
       rc_MultilineLogger := l;
       rc_requestID := requestID |}
    {| rw_Flusher := None;
       rw_ResponseWriter := w;
       rw_MultilineLogger := l;
       rw_request := r;
       rw_requestID := requestID;
       rw_wroteHeader := false |}.

End Package.

(** ** The log lines, as the documentation of the format gives them *)

(** The text that reaches the sink for a line [s]. *)
Definition redacted (l : MultilineLogger) (s : string) : string :=
  match redactor l with
  | Some redact => redact s
  | None => s
  end.

(** [<id> > <METHOD> <request-target> <protocol>] *)
Definition request_line (id : RequestID) (r : http_Request) : string :=
  id +:+ " > " +:+ Method r +:+ " " +:+ RequestURI (URL r) +:+ " " +:+ Proto r.

(** [<id> <dir> <name>: <value>], with [dir] one of [>] and [<]. *)
Definition header_line (id : RequestID) (dir name value : string) : string :=
  id +:+ " " +:+ dir +:+ " " +:+ name +:+ ": " +:+ value.

(** One header line per value, in the order of the enumeration [hs]. *)
Definition header_lines (id : RequestID) (dir : string)
    (hs : list (string * list string)) : list string :=
  flat_map (fun kv => map (header_line id dir kv.1) kv.2) hs.

(** [<id> <dir>], the blank separator. *)
Definition blank_line (id : RequestID) (dir : string) : string :=
  id +:+ " " +:+ dir +:+ newline.

(** [<id> <dir> <chunk>], a body chunk. *)
Definition body_line (id : RequestID) (dir chunk : string) : string :=
  id +:+ " " +:+ dir +:+ " " +:+ chunk +:+ newline.

(** [<id> < <protocol> <code> <status text>] *)
Definition response_line {rt : GoRuntime} (id : RequestID) (proto : string)
    (code : Z) : string :=
  id +:+ " < " +:+ proto +:+ " " +:+ fmt.decimal code +:+ " " +:+ StatusText code.

(** The response status and header block: response line, header lines,
    blank separator. *)
Definition response_block {rt : GoRuntime} (id : RequestID) (proto : string)
    (code : Z) (hs : list (string * list string)) : list string :=
  response_line id proto code :: header_lines id "<" hs ++ [blank_line id "<"].

(** The request prologue: request line, header lines, blank separator. *)
Definition request_block (id : RequestID) (r : http_Request)
    (hs : list (string * list string)) : list string :=
  request_line id r :: header_lines id ">" hs ++ [blank_line id ">"].

(** A chunk without its last byte when that is a line feed. *)
Definition strip_newline (p : list byte) : list byte :=
  match reverse p with
  | b :: rest => if bool_decide (b = LF_byte) then reverse rest else p
  | [] => p
  end.

(** The calls on the sink that emit the lines [lines]. *)
Definition log_events (l : MultilineLogger) (lines : list string) : list event :=
  map (fun s => LoggerOutput 2 (redacted l s)) lines.

Definition add_events (evs : list event) (w : World) : World :=
  mkWorld (events w ++ evs) (response_header w).

(** The events of a header commit with status [code] made in world [wd]:
    the block, then the call forwarded to the original writer.  The range
    loop starts once the response line is out. *)
Definition commit_events {rt : GoRuntime} (w : multilineLoggerResponseWriter)
    (code : Z) (wd : World) : list event :=
  let l := rw_MultilineLogger w in
  let id := rw_requestID w in
  let proto := Proto (rw_request w) in
  let first := log_events l [response_line id proto code] in
  log_events l
    (response_block id proto code
       (range_Header (add_events first wd) (response_header wd)))
  ++ [WriterWriteHeader code].

(** The call on the sink that emits the line of a response chunk [p]. *)
Definition chunk_line (w : multilineLoggerResponseWriter) (p : list byte) : event :=
  LoggerOutput 2
    (redacted (rw_MultilineLogger w)
       (body_line (rw_requestID w) "<" (string_of_bytes (strip_newline p)))).

(** The events of a body write: the chunk line, then the chunk forwarded. *)
Definition chunk_events (w : multilineLoggerResponseWriter) (p : list byte)
  : list event :=
  [chunk_line w p; WriterWrite p].

#[global] Instance error_eq_decision : EqDecision error.
Proof. solve_decision. Defined.

#[global] Instance event_eq_decision : EqDecision event.
Proof. solve_decision. Defined.

(** How many times [block] occurs in [evs] as a run of consecutive
    events. *)
Fixpoint occurrences (block evs : list event) : nat :=
  match evs with
  | [] => if bool_decide (block = []) then 1%nat else 0%nat
  | e :: evs' =>
      ((if bool_decide (take (length block) evs = block) then 1 else 0)
       + occurrences block evs')%nat
  end.

(** The events an exchange adds after its request prologue, for a logger
    [l], an identifier [id] and a protocol [proto]; the flag tells whether
    the header was committed before. Events of the request side pass
    freely; a commit is a block followed by the forwarded call; a chunk
    line with its forwarded write comes only after a commit. *)
Definition request_side (l : MultilineLogger) (id : RequestID) (e : event) : Prop :=
  match e with
  | BodyRead _ | BodyClose | WriterFlush => True
  | LoggerOutput d s => d = 2 /\ exists chunk, s = redacted l (body_line id ">" chunk)
  | WriterWriteHeader _ | WriterWrite _ => False
  end.

Inductive response_events {rt : GoRuntime} (l : MultilineLogger)
    (id : RequestID) (proto : string) : bool -> list event -> Prop :=
| re_nil b : response_events l id proto b []
| re_request b e evs :
    request_side l id e ->
    response_events l id proto b evs ->
    response_events l id proto b (e :: evs)
| re_commit b code hs evs :
    response_events l id proto true evs ->
    response_events l id proto b
      (log_events l (response_block id proto code hs)
       ++ WriterWriteHeader code :: evs)
| re_chunk p evs :
    response_events l id proto true evs ->
    response_events l id proto true
      (LoggerOutput 2 (redacted l (body_line id "<" (string_of_bytes (strip_newline p))))
       :: WriterWrite p :: evs).

(** The two wrappers [ServeHTTP] builds for an exchange with identifier
    [id]. *)
Definition wrapped_body (l : MultilineLogger) (r : http_Request) (id : RequestID)
  : multilineLoggerReadCloser :=
  {| rc_ReadCloser := Body r;
     rc_MultilineLogger := l;
     rc_requestID := id |}.

Definition wrapped_writer (l : MultilineLogger) (w : http_ResponseWriter)
    (r : http_Request) (id : RequestID) : multilineLoggerResponseWriter :=
  {| rw_Flusher := None;
     rw_ResponseWriter := w;
     rw_MultilineLogger := l;
     rw_request := r;
     rw_requestID := id;
     rw_wroteHeader := false |}.

(** The order in which the range loop of [ServeHTTP] walks the request
    header: the loop starts once the request line is out. *)
Definition request_header_order {rt : GoRuntime} (l : MultilineLogger)
    (r : http_Request) (wd : World) : list (string * list string) :=
  range_Header
    (add_events (log_events l [request_line (RequestIDCreator_ l wd r) r]) wd)
    (Header r).

(** Two wrappers that differ at most in the sink of their logger. *)
Definition same_body (b1 b2 : multilineLoggerReadCloser) : Prop :=
  rc_ReadCloser b1 = rc_ReadCloser b2
  /\ rc_requestID b1 = rc_requestID b2
  /\ redactor (rc_MultilineLogger b1) = redactor (rc_MultilineLogger b2).

Definition same_writer (w1 w2 : multilineLoggerResponseWriter) : Prop :=
  rw_ResponseWriter w1 = rw_ResponseWriter w2
  /\ rw_request w1 = rw_request w2
  /\ rw_requestID w1 = rw_requestID w2
  /\ rw_wroteHeader w1 = rw_wroteHeader w2
  /\ redactor (rw_MultilineLogger w1) = redactor (rw_MultilineLogger w2).

(** The events a computation adds to those of the world it starts in. *)
Definition added_events {A : Type} (m : M A) (w : World) : list event :=
  drop (length (events w)) (events (world_after m w)).

(** The same logger writing to another sink. *)
Definition with_sink (lg : Logger) (l : MultilineLogger) : MultilineLogger :=
  {| Logger_ := lg;
     handler := handler l;
     redactor := redactor l;
     RequestIDCreator_ := RequestIDCreator_ l |}.

(** ** A concrete exchange

    The request [GET /items?x=1 HTTP/1.1] with header [X-Key: secret] and
    body [ping], answered with header [Content-Type: text/plain] and body
    [pong] followed by a line feed. *)

Module demo.

Definition runtime : GoRuntime :=
  {| range_Header := fun _ h => map_to_list h;
     StatusText := fun code =>
       if bool_decide (code = 200) then "OK"
       else if bool_decide (code = 404) then "Not Found"
       else "" |}.

Definition sink : Logger := {| Logger_Output_result := fun _ _ _ => None |}.

Definition broken_sink : Logger :=
  {| Logger_Output_result := fun _ _ _ => Some (errorString "write failed") |}.

Definition EOF : error := errorString "EOF".

Definition is_BodyRead (e : event) : bool :=
  match e with BodyRead _ => true | _ => false end.

Definition reads_so_far (w : World) : nat :=
  length (List.filter is_BodyRead (events w)).

(** A body that gives [ping] on the first read and end of file after. *)
Definition body : io_ReadCloser :=
  {| Read_result := fun w p =>
       match reads_so_far w with
       | O => let data := take (length p) (list_byte_of_string "ping") in
              ((data ++ drop (length data) p)%list, Z.of_nat (length data), None)
       | S _ => (p, 0, Some EOF)
       end;
     Close_result := fun _ => None |}.

(** A body whose read fails after two bytes. *)
Definition short_body : io_ReadCloser :=
  {| Read_result := fun _ p =>
       ((list_byte_of_string "pi" ++ drop 2 p)%list, 2,
        Some (errorString "unexpected EOF"));
     Close_result := fun _ => None |}.

Definition writer : http_ResponseWriter :=
  {| Write_result := fun _ p => (Z.of_nat (length p), None);
     is_Flusher := true |}.

Definition plain_writer : http_ResponseWriter :=
  {| Write_result := fun _ p => (Z.of_nat (length p), None);
     is_Flusher := false |}.

Definition request : http_Request :=
  {| Method := "GET";
     URL := {| RequestURI := "/items?x=1" |};
     Proto := "HTTP/1.1";
     Header := {[ "X-Key" := ["secret"] ]};
     Body := body |}.

Definition buffer : list byte := replicate 8 x00.

Definition pong : list byte := (list_byte_of_string "pong" ++ [LF_byte])%list.

(** Reads the body once, sets a header, writes the answer. *)
Definition ping_pong (_ : http_Request) : http_Handler :=
  DoRead buffer (fun _ _ _ =>
  DoSetHeader (fun h => <[ "Content-Type" := ["text/plain"] ]> h) (
  DoWrite pong (fun _ _ => Return))).

(** Commits the header twice. *)
Definition commits_twice (_ : http_Request) : http_Handler :=
  DoWriteHeader 200 (DoWriteHeader 200 Return).

(** Writes an empty chunk after committing the header. *)
Definition writes_nothing (_ : http_Request) : http_Handler :=
  DoWriteHeader 200 (DoWrite [] (fun _ _ => Return)).

Definition fixed_id : RequestIDCreator := fun _ _ => "id".

Definition logger (h : http_Request -> http_Handler) : MultilineLogger :=
  Logged sink fixed_id h None.

Definition upper (c : ascii) : ascii :=
  let n := nat_of_ascii c in
  if bool_decide (97 <= n <= 122)%nat then ascii_of_nat (n - 32) else c.

Fixpoint uppercase (s : string) : string :=
  match s with
  | "" => ""
  | String c s' => String (upper c) (uppercase s')
  end.

Definition shouting_logger (h : http_Request -> http_Handler) : MultilineLogger :=
  Logged sink fixed_id h (Some uppercase).

Definition start : World := mkWorld [] ∅.

Definition wrapper (l : MultilineLogger) (wrote : bool)
  : multilineLoggerResponseWriter :=
  {| rw_Flusher := None;
     rw_ResponseWriter := writer;
     rw_MultilineLogger := l;
     rw_request := request;
     rw_requestID := "id";
     rw_wroteHeader := wrote |}.

Definition body_wrapper (l : MultilineLogger) (b : io_ReadCloser)
  : multilineLoggerReadCloser :=
  {| rc_ReadCloser := b;
     rc_MultilineLogger := l;
     rc_requestID := "id" |}.

(** The same request with the body that fails after two bytes. *)
Definition short_request : http_Request :=
  {| Method := "GET";
     URL := {| RequestURI := "/items?x=1" |};
     Proto := "HTTP/1.1";
     Header := {[ "X-Key" := ["secret"] ]};
     Body := short_body |}.

End demo.

(** ** The exchange as the original body and writer see it *)

(** The calls that reach the original body and writer: all but those on
    the sink. *)
Definition is_wire (e : event) : bool :=
  match e with LoggerOutput _ _ => false | _ => true end.

Definition is_commit (e : event) : bool :=
  match e with WriterWriteHeader _ => true | _ => false end.

Definition is_write (e : event) : bool :=
  match e with WriterWrite _ => true | _ => false end.

(** The world without the calls on the sink. *)
Definition wire (w : World) : World :=
  mkWorld (List.filter is_wire (events w)) (response_header w).

(** The handler at work on the original body and writer, no logger in
    between; [committed] tells whether the header was committed. The one
    thing kept from the wrapper is that the commit with status 200, which a
    first write implies, is made as a call of its own. *)
Fixpoint serve_direct (h : http_Handler) (rc : io_ReadCloser)
    (rw : http_ResponseWriter) (committed : bool) : M unit :=
  match h with
  | Return => mret tt
  | DoRead p k =>
      '(p', n, err) ← ReadCloser_Read rc p; serve_direct (k p' n err) rc rw committed
  | DoClose k =>
      err ← ReadCloser_Close rc; serve_direct (k err) rc rw committed
  | DoSetHeader f k =>
      (fun wd => (Ok tt, mkWorld (events wd) (f (response_header wd))));;
      serve_direct k rc rw committed
  | DoWriteHeader code k =>
      ResponseWriter_WriteHeader rw code;; serve_direct k rc rw true
  | DoWrite p k =>
      (if committed then mret tt else ResponseWriter_WriteHeader rw StatusOK);;
      '(n, err) ← ResponseWriter_Write rw p;
      serve_direct (k n err) rc rw true
  | DoFlush k =>
      (if is_Flusher rw then (fun wd => (Ok tt, record WriterFlush wd)) else mret tt);;
      serve_direct k rc rw committed
  end.

(** A body and a writer whose answers do not depend on what was logged. *)
Definition blind_body (rc : io_ReadCloser) : Prop :=
  forall w p,
    Read_result rc w p = Read_result rc (wire w) p
    /\ Close_result rc w = Close_result rc (wire w).

Definition blind_writer (rw : http_ResponseWriter) : Prop :=
  forall w p, Write_result rw w p = Write_result rw (wire w) p.

(** The contract of [io.Reader] on the count: [n <= len(p)]. *)
Definition keeps_contract (rc : io_ReadCloser) : Prop :=
  forall w p p' n err,
    Read_result rc w p = (p', n, err) -> n <= Z.of_nat (length p').

(** A handler that never calls [WriteHeader] itself. *)
Fixpoint never_WriteHeader (h : http_Handler) : Prop :=
  match h with
  | Return => True
  | DoRead _ k => forall p' n err, never_WriteHeader (k p' n err)
  | DoClose k => forall err, never_WriteHeader (k err)
  | DoSetHeader _ k => never_WriteHeader k
  | DoWriteHeader _ _ => False
  | DoWrite _ k => forall n err, never_WriteHeader (k n err)
  | DoFlush k => never_WriteHeader k
  end.

(** A handler that writes the chunks [ps] one after the other. *)
Fixpoint write_all (ps : list (list byte)) : http_Handler :=
  match ps with
  | [] => Return
  | p :: ps' => DoWrite p (fun _ _ => write_all ps')
  end.

(** A call on the sink made for the exchange [id]: call depth 2, and a
    line that is the identifier, a space, the direction and the rest, as
    the redactor leaves it. *)
Definition exchange_line (l : MultilineLogger) (id : RequestID) (e : event) : Prop :=
  match e with
  | LoggerOutput d s =>
      d = 2
      /\ exists dir rest,
           (dir = ">" \/ dir = "<")
           /\ s = redacted l (id +:+ " " +:+ dir +:+ rest)
  | _ => True
  end.

(** The commits forwarded in a run of a handler that never calls
    WriteHeader: none when the header was committed before; otherwise one,
    with status 200, when the run writes, and none when it does not. *)
Definition commits_of_writes (committed : bool) (evs : list event) : Prop :=
  List.filter is_commit evs
  = if committed then []
    else if existsb is_write evs then [WriterWriteHeader StatusOK] else [].

(** ** How the operations run *)

Section Runs.
Context {rt : GoRuntime}.

Lemma add_events_nil (w : World) : add_events [] w = w.
Proof. destruct w as [evs h]. unfold add_events; simpl. by rewrite app_nil_r. Qed.

Lemma add_events_app (a b : list event) (w : World) :
  add_events b (add_events a w) = add_events (a ++ b) w.
Proof. unfold add_events; simpl. by rewrite app_assoc. Qed.

Lemma response_header_add_events (evs : list event) (w : World) :
  response_header (add_events evs w) = response_header w.
Proof. reflexivity. Qed.

Lemma events_add_events (evs : list event) (w : World) :
  events (add_events evs w) = events w ++ evs.
Proof. reflexivity. Qed.

Lemma bind_Ok {A B : Type} (m : M A) (f : A -> M B) (w w' : World) (a : A) :
  m w = (Ok a, w') -> (m ≫= f) w = f a w'.
Proof. intros H. unfold mbind, M_bind. by rewrite H. Qed.

Lemma bind_Panic {A B : Type} (m : M A) (f : A -> M B) (w w' : World) :
  m w = (Panic, w') -> (m ≫= f) w = (Panic, w').
Proof. intros H. unfold mbind, M_bind. by rewrite H. Qed.

Lemma Output_run (l : MultilineLogger) (calldepth : Z) (s : string) (w : World) :
  Output l calldepth s w
  = (Ok (Logger_Output_result (Logger_ l) w calldepth (redacted l s)),
     add_events [LoggerOutput calldepth (redacted l s)] w).
Proof. reflexivity. Qed.

Lemma Print_run (l : MultilineLogger) (v : list fmt.operand) (w : World) :
  Print l v w = (Ok tt, add_events (log_events l [fmt.Sprint v]) w).
Proof. reflexivity. Qed.

Lemma Printf_run (l : MultilineLogger) (format : string) (v : list fmt.operand)
    (w : World) :
  Printf l format v w = (Ok tt, add_events (log_events l [fmt.Sprintf format v]) w).
Proof. reflexivity. Qed.

Lemma Println_run (l : MultilineLogger) (v : list fmt.operand) (w : World) :
  Println l v w = (Ok tt, add_events (log_events l [fmt.Sprintln v]) w).
Proof. reflexivity. Qed.

Lemma append_String (c : ascii) (s t : string) :
  String c s +:+ t = String c (s +:+ t).
Proof. reflexivity. Qed.

Lemma append_empty_l (t : string) : "" +:+ t = t.
Proof. reflexivity. Qed.

Lemma append_empty_r (s : string) : s +:+ "" = s.
Proof.
  induction s as [|c s IH]; [done|].
  rewrite append_String. by f_equal.
Qed.

Ltac format_line :=
  cbv -[String.append fmt.decimal StatusText];
  rewrite ?append_String, ?append_empty_l, ?append_empty_r;
  reflexivity.

Lemma Sprintf_request_line (id : RequestID) (r : http_Request) :
  fmt.Sprintf "%s > %s %s %s"
    [fmt.Str id; fmt.Str (Method r); fmt.Str (RequestURI (URL r)); fmt.Str (Proto r)]
  = request_line id r.
Proof. format_line. Qed.

Lemma Sprintf_request_header (id : RequestID) (name value : string) :
  fmt.Sprintf "%s > %s: %s" [fmt.Str id; fmt.Str name; fmt.Str value]
  = header_line id ">" name value.
Proof. format_line. Qed.

Lemma Sprintf_response_header (id : RequestID) (name value : string) :
  fmt.Sprintf "%s < %s: %s" [fmt.Str id; fmt.Str name; fmt.Str value]
  = header_line id "<" name value.
Proof. format_line. Qed.

Lemma Sprintf_response_line (id : RequestID) (proto : string) (code : Z) :
  fmt.Sprintf "%s < %s %d %s"
    [fmt.Str id; fmt.Str proto; fmt.Int code; fmt.Str (StatusText code)]
  = response_line id proto code.
Proof. format_line. Qed.

Lemma Sprintln_blank (id : RequestID) (dir : string) :
  fmt.Sprintln [fmt.Str id; fmt.Str dir] = blank_line id dir.
Proof. format_line. Qed.

Lemma Sprintln_body (id : RequestID) (dir chunk : string) :
  fmt.Sprintln [fmt.Str id; fmt.Str dir; fmt.Str chunk] = body_line id dir chunk.
Proof. format_line. Qed.

Lemma log_events_app (l : MultilineLogger) (a b : list string) :
  log_events l (a ++ b) = log_events l a ++ log_events l b.
Proof. unfold log_events. apply map_app. Qed.

Lemma for_each_run {A : Type} (xs : list A) (body : A -> M unit)
    (evs : A -> list event) (w : World) :
  (forall x w', body x w' = (Ok tt, add_events (evs x) w')) ->
  for_each xs body w = (Ok tt, add_events (flat_map evs xs) w).
Proof.
  intros Hbody. revert w.
  induction xs as [|x xs IH]; intros w; simpl.
  - by rewrite add_events_nil.
  - erewrite bind_Ok by apply Hbody.
    rewrite IH. by rewrite add_events_app.
Qed.

Lemma flat_map_log_events {A : Type} (l : MultilineLogger) (line : A -> string)
    (xs : list A) :
  flat_map (fun x => log_events l [line x]) xs = log_events l (map line xs).
Proof. induction xs as [|x xs IH]; [done|]. simpl. by f_equal. Qed.

Lemma flat_map_header_lines (l : MultilineLogger) (id : RequestID) (dir : string)
    (hs : list (string * list string)) :
  flat_map (fun kv => log_events l (map (header_line id dir kv.1) kv.2)) hs
  = log_events l (header_lines id dir hs).
Proof.
  unfold header_lines.
  induction hs as [|kv hs IH]; [done|].
  simpl. by rewrite log_events_app, IH.
Qed.

Lemma range_values_run (l : MultilineLogger) (id : RequestID) (dir : string)
    (h : gmap string (list string)) (body : string -> string -> M unit)
    (w : World) :
  (forall name value w',
     body name value w'
     = (Ok tt, add_events (log_events l [header_line id dir name value]) w')) ->
  range_values h body w
  = (Ok tt, add_events (log_events l (header_lines id dir (range_Header w h))) w).
Proof.
  intros Hbody. unfold range_values.
  rewrite <- flat_map_header_lines.
  apply for_each_run. intros [name values] w'.
  rewrite <- flat_map_log_events.
  apply for_each_run. intros value w''. apply Hbody.
Qed.

Lemma record_add_events (e : event) (w : World) : record e w = add_events [e] w.
Proof. reflexivity. Qed.

Lemma WriteHeader_run (w : multilineLoggerResponseWriter) (code : Z) (wd : World) :
  WriteHeader w code wd
  = (Ok (set_wroteHeader true w), add_events (commit_events w code wd) wd).
Proof.
  unfold WriteHeader, commit_events, response_block.
  erewrite bind_Ok by apply Printf_run.
  erewrite bind_Ok by reflexivity.
  erewrite bind_Ok.
  2:{ apply (range_values_run (rw_MultilineLogger w) (rw_requestID w) "<").
      intros name value w'. rewrite Printf_run.
      by rewrite Sprintf_response_header. }
  erewrite bind_Ok by apply Println_run.
  erewrite bind_Ok by reflexivity.
  unfold mret, M_ret. f_equal.
  rewrite record_add_events, !add_events_app. f_equal.
  simpl rw_MultilineLogger. simpl rw_requestID. simpl rw_request.
  rewrite Sprintf_response_line, Sprintln_blank.
  rewrite response_header_add_events.
  change (response_line (rw_requestID w) (Proto (rw_request w)) code
          :: header_lines (rw_requestID w) "<"
               (range_Header
                  (add_events
                     (log_events (rw_MultilineLogger w)
                        [response_line (rw_requestID w) (Proto (rw_request w)) code])
                     wd)
                  (response_header wd))
          ++ [blank_line (rw_requestID w) "<"])
    with ([response_line (rw_requestID w) (Proto (rw_request w)) code]
          ++ header_lines (rw_requestID w) "<"
               (range_Header
                  (add_events
                     (log_events (rw_MultilineLogger w)
                        [response_line (rw_requestID w) (Proto (rw_request w)) code])
                     wd)
                  (response_header wd))
          ++ [blank_line (rw_requestID w) "<"]).
  rewrite !log_events_app. by rewrite <- !app_assoc.
Qed.

Lemma strip_newline_code (p : list byte) :
  (if bool_decide (0 < length p)%nat
      && bool_decide (p !! (length p - 1)%nat = Some LF_byte)
   then take (length p - 1) p
   else p)
  = strip_newline p.
Proof.
  unfold strip_newline.
  destruct p as [|b0 p0] using rev_ind; [done|].
  rewrite reverse_app, length_app. simpl.
  replace (length p0 + 1 - 1)%nat with (length p0) by lia.
  rewrite lookup_app_r, Nat.sub_diag by lia. simpl.
  rewrite take_app_length, reverse_involutive.
  rewrite bool_decide_true by lia. simpl.
  destruct (decide (b0 = LF_byte)) as [->|Hne].
  - by rewrite !bool_decide_true.
  - rewrite !bool_decide_false; [done|done|congruence].
Qed.

Lemma set_wroteHeader_same (w : multilineLoggerResponseWriter) :
  rw_wroteHeader w = true -> set_wroteHeader true w = w.
Proof. destruct w; simpl. by intros ->. Qed.

Lemma Write_run (w : multilineLoggerResponseWriter) (p : list byte) (wd : World) :
  let commit := if rw_wroteHeader w then [] else commit_events w StatusOK wd in
  Write w p wd
  = (Ok (set_wroteHeader true w,
         Write_result (rw_ResponseWriter w)
           (add_events (commit ++ [chunk_line w p]) wd) p),
     add_events (commit ++ chunk_events w p) wd).
Proof.
  intros commit. unfold Write.
  assert (Hfirst :
    (if negb (rw_wroteHeader w) then WriteHeader w StatusOK else mret w) wd
    = (Ok (set_wroteHeader true w), add_events commit wd)).
  { subst commit. destruct (rw_wroteHeader w) eqn:Hw; simpl.
    - unfold mret, M_ret. by rewrite add_events_nil, set_wroteHeader_same.
    - apply WriteHeader_run. }
  erewrite bind_Ok by apply Hfirst.
  erewrite bind_Ok.
  2:{ instantiate (1 := add_events [chunk_line w p] (add_events commit wd)).
      instantiate (1 := tt).
      unfold chunk_line. rewrite <- strip_newline_code.
      simpl rw_MultilineLogger. simpl rw_requestID.
      destruct (bool_decide (0 < length p)%nat
                && bool_decide (p !! (length p - 1)%nat = Some LF_byte));
        by rewrite Println_run, Sprintln_body. }
  erewrite bind_Ok by reflexivity.
  unfold mret, M_ret. simpl rw_ResponseWriter.
  rewrite record_add_events, !add_events_app.
  unfold chunk_events. by rewrite <- !app_assoc.
Qed.

Lemma Read_run (r : multilineLoggerReadCloser) (p : list byte) (wd : World)
    (p' : list byte) (n : Z) (err : option error) :
  Read_result (rc_ReadCloser r) wd p = (p', n, err) ->
  Read r p wd
  = if bool_decide (0 < n)
    then if bool_decide (n <= Z.of_nat (length p'))
         then (Ok (p', n, err),
               add_events
                 [BodyRead p;
                  LoggerOutput 2
                    (redacted (rc_MultilineLogger r)
                       (body_line (rc_requestID r) ">"
                          (string_of_bytes (take (Z.to_nat n) p'))))]
                 wd)
         else (Panic, add_events [BodyRead p] wd)
    else (Ok (p', n, err), add_events [BodyRead p] wd).
Proof.
  intros Hres. unfold Read.
  erewrite bind_Ok.
  2:{ unfold ReadCloser_Read. rewrite Hres. reflexivity. }
  rewrite record_add_events.
  case_bool_decide as Hn.
  - unfold slice_to. case_bool_decide as Hlen.
    + rewrite bool_decide_true by lia.
      erewrite bind_Ok.
      2:{ erewrite bind_Ok by reflexivity.
          rewrite Println_run, Sprintln_body. reflexivity. }
      unfold mret, M_ret. by rewrite add_events_app.
    + rewrite bool_decide_false by lia.
      erewrite bind_Panic; [done|].
      erewrite bind_Panic; [done|]. reflexivity.
  - erewrite bind_Ok by reflexivity. reflexivity.
Qed.

Lemma Flush_run (w : multilineLoggerResponseWriter) (wd : World) :
  Flush w wd
  = (Ok tt,
     if is_Flusher (rw_ResponseWriter w) then add_events [WriterFlush] wd else wd).
Proof. unfold Flush, as_Flusher. by destruct (is_Flusher (rw_ResponseWriter w)). Qed.

Lemma Close_run (r : multilineLoggerReadCloser) (wd : World) :
  Close r wd = (Ok (Close_result (rc_ReadCloser r) wd), add_events [BodyClose] wd).
Proof. reflexivity. Qed.

Lemma bind_run {A B : Type} (m : M A) (f : A -> M B) (w : World) :
  (m ≫= f) w
  = match m w with
    | (Ok a, w') => f a w'
    | (Panic, w') => (Panic, w')
    end.
Proof. reflexivity. Qed.

Lemma added_events_run {A : Type} (m : M A) (w : World) (res : outcome A)
    (evs : list event) (h : gmap string (list string)) :
  m w = (res, mkWorld (events w ++ evs) h) -> added_events m w = evs.
Proof.
  intros H. unfold added_events, world_after. rewrite H. simpl.
  by rewrite drop_app_length.
Qed.

(** *** The events of an exchange *)

Lemma response_events_app_request (l : MultilineLogger) (id : RequestID)
    (proto : string) (b : bool) (pre evs : list event) :
  Forall (request_side l id) pre ->
  response_events l id proto b evs ->
  response_events l id proto b (pre ++ evs).
Proof.
  intros Hpre Hevs. induction Hpre as [|e pre He _ IH]; [done|].
  simpl. by apply re_request.
Qed.

Lemma run_handler_events (h : http_Handler) (body : multilineLoggerReadCloser)
    (w : multilineLoggerResponseWriter) (wd : World) :
  rc_MultilineLogger body = rw_MultilineLogger w ->
  rc_requestID body = rw_requestID w ->
  exists evs,
    events (world_after (run_handler h body w) wd) = events wd ++ evs
    /\ response_events (rw_MultilineLogger w) (rw_requestID w)
         (Proto (rw_request w)) (rw_wroteHeader w) evs.
Proof.
  intros Hl Hid. revert w wd Hl Hid.
  induction h as [|p k IH|k IH|f k IH|code k IH|p k IH|k IH];
    intros w wd Hl Hid; unfold world_after; simpl run_handler.
  - exists []. split; [by rewrite app_nil_r|constructor].
  - rewrite bind_run.
    destruct (Read_result (rc_ReadCloser body) wd p) as [[p' n] err] eqn:Hres.
    rewrite (Read_run _ _ _ _ _ _ Hres).
    repeat case_bool_decide.
    + destruct (IH p' n err w
                  (add_events
                     [BodyRead p;
                      LoggerOutput 2
                        (redacted (rc_MultilineLogger body)
                           (body_line (rc_requestID body) ">"
                              (string_of_bytes (take (Z.to_nat n) p'))))] wd)
                  Hl Hid) as (evs & Hev & Hre).
      eexists. split.
      * unfold world_after in Hev. rewrite Hev, events_add_events.
        by rewrite <- app_assoc.
      * apply response_events_app_request; [|done].
        repeat constructor. rewrite Hl, Hid. eauto.
    + exists [BodyRead p]. split; [done|]. by repeat constructor.
    + destruct (IH p' n err w (add_events [BodyRead p] wd) Hl Hid)
        as (evs & Hev & Hre).
      eexists. split.
      * unfold world_after in Hev. rewrite Hev, events_add_events.
        by rewrite <- app_assoc.
      * apply response_events_app_request; [|done]. by repeat constructor.
  - rewrite bind_run, Close_run.
    destruct (IH (Close_result (rc_ReadCloser body) wd) w
                (add_events [BodyClose] wd) Hl Hid) as (evs & Hev & Hre).
    eexists. split.
    + unfold world_after in Hev. rewrite Hev, events_add_events.
      by rewrite <- app_assoc.
    + apply response_events_app_request; [|done]. by repeat constructor.
  - rewrite bind_run.
    destruct (IH w (mkWorld (events wd) (f (response_header wd))) Hl Hid)
      as (evs & Hev & Hre).
    exists evs. split; [|done]. apply Hev.
  - rewrite bind_run, WriteHeader_run.
    destruct (IH (set_wroteHeader true w)
                (add_events (commit_events w code wd) wd) Hl Hid)
      as (evs & Hev & Hre).
    eexists. split.
    + unfold world_after in Hev. rewrite Hev, events_add_events.
      by rewrite <- app_assoc.
    + unfold commit_events. rewrite <- app_assoc. simpl.
      apply re_commit. apply Hre.
  - rewrite bind_run, Write_run.
    destruct (Write_result _ _ p) as [n err].
    match goal with
    | |- context [run_handler (k n err) body (set_wroteHeader true w) ?wd'] =>
        destruct (IH n err (set_wroteHeader true w) wd' Hl Hid)
          as (evs & Hev & Hre)
    end.
    eexists. split.
    + unfold world_after in Hev. rewrite Hev, events_add_events.
      by rewrite <- app_assoc.
    + simpl in Hre. unfold chunk_events, chunk_line.
      destruct (rw_wroteHeader w) eqn:Hw.
      * simpl. by apply re_chunk.
      * unfold commit_events. rewrite <- !app_assoc. simpl.
        apply re_commit. by apply re_chunk.
  - rewrite bind_run, Flush_run.
    destruct (is_Flusher (rw_ResponseWriter w)).
    + destruct (IH w (add_events [WriterFlush] wd) Hl Hid) as (evs & Hev & Hre).
      eexists. split.
      * unfold world_after in Hev. rewrite Hev, events_add_events.
        by rewrite <- app_assoc.
      * apply response_events_app_request; [|done]. by repeat constructor.
    + destruct (IH w wd Hl Hid) as (evs & Hev & Hre).
      exists evs. split; [|done]. apply Hev.
Qed.

Lemma ServeHTTP_run (l : MultilineLogger) (w : http_ResponseWriter)
    (r : http_Request) (wd : World) :
  let id := RequestIDCreator_ l wd r in
  ServeHTTP l w r wd
  = run_handler (handler l r) (wrapped_body l r id) (wrapped_writer l w r id)
      (add_events (log_events l (request_block id r (request_header_order l r wd)))
         wd).
Proof.
  intros id. unfold ServeHTTP.
  erewrite bind_Ok by reflexivity. fold id.
  erewrite bind_Ok by apply Printf_run.
  erewrite bind_Ok.
  2:{ apply (range_values_run l id ">").
      intros name value w'. rewrite Printf_run.
      by rewrite Sprintf_request_header. }
  erewrite bind_Ok by apply Println_run.
  rewrite Sprintf_request_line, Sprintln_blank, !add_events_app.
  unfold request_block, request_header_order. fold id.
  change (request_line id r
          :: header_lines id ">"
               (range_Header (add_events (log_events l [request_line id r]) wd)
                  (Header r))
          ++ [blank_line id ">"])
    with ([request_line id r]
          ++ header_lines id ">"
               (range_Header (add_events (log_events l [request_line id r]) wd)
                  (Header r))
          ++ [blank_line id ">"]).
  by rewrite !log_events_app.
Qed.

Lemma app_split_not_in {A : Type} (l1 l2 pre post : list A) (x : A) :
  x ∉ l1 ->
  l1 ++ l2 = pre ++ x :: post ->
  exists pre0, pre = l1 ++ pre0 /\ l2 = pre0 ++ x :: post.
Proof.
  revert pre. induction l1 as [|y l1 IH]; intros pre Hnot Heq.
  - exists pre. by split.
  - destruct pre as [|z pre]; simpl in Heq.
    + injection Heq as -> _. exfalso. apply Hnot. left.
    + injection Heq as -> Heq.
      destruct (IH pre) as (pre0 & -> & ->); [set_solver|done|].
      by exists pre0.
Qed.

Lemma WriterWrite_not_logged (l : MultilineLogger) (lines : list string)
    (p : list byte) :
  WriterWrite p ∉ log_events l lines.
Proof.
  unfold log_events. intros (s & Hs & _)%list_elem_of_fmap. discriminate.
Qed.

(** In the events of an exchange a forwarded write follows its chunk line
    at once, and when the header was not committed at the start a block
    with its forwarded commit lies before. *)
Lemma response_events_write (l : MultilineLogger) (id : RequestID)
    (proto : string) (b : bool) (evs : list event) :
  response_events l id proto b evs ->
  forall pre p post,
    evs = pre ++ WriterWrite p :: post ->
    (exists pre',
       pre = pre'
             ++ [LoggerOutput 2
                   (redacted l (body_line id "<" (string_of_bytes (strip_newline p))))])
    /\ (b = false ->
        exists a code hs c,
          pre = a ++ log_events l (response_block id proto code hs)
                ++ WriterWriteHeader code :: c).
Proof.
  induction 1 as [b|b e evs He Hevs IH|b code hs evs Hevs IH|p0 evs Hevs IH];
    intros pre p post Heq.
  - by destruct pre.
  - destruct pre as [|e' pre]; simpl in Heq.
    + injection Heq as -> _. destruct He.
    + injection Heq as -> Heq.
      destruct (IH _ _ _ Heq) as [(pre' & ->) Hblock]. split.
      * by exists (e' :: pre').
      * intros Hb. destruct (Hblock Hb) as (a & code & hs & c & ->).
        by exists (e' :: a), code, hs, c.
  - replace (log_events l (response_block id proto code hs)
             ++ WriterWriteHeader code :: evs)
      with ((log_events l (response_block id proto code hs)
             ++ [WriterWriteHeader code]) ++ evs) in Heq
      by (by rewrite <- app_assoc).
    apply app_split_not_in in Heq as (pre0 & -> & Heq).
    2:{ intros [Hin|Hin]%elem_of_app.
        - by apply WriterWrite_not_logged in Hin.
        - apply list_elem_of_singleton in Hin. discriminate. }
    destruct (IH _ _ _ Heq) as [(pre' & ->) _]. split.
    + eexists. by rewrite app_assoc.
    + intros _. exists [], code, hs. eexists. simpl. by rewrite <- app_assoc.
  - destruct pre as [|e1 pre]; simpl in Heq; [discriminate|].
    injection Heq as <- Heq.
    destruct pre as [|e2 pre]; simpl in Heq.
    + injection Heq as <- _. split; [by exists []|done].
    + injection Heq as <- Heq.
      destruct (IH _ _ _ Heq) as [(pre' & ->) _]. split; [|done].
      by eexists (_ :: _ :: pre').
Qed.

(** *** The sink's answers are never looked at *)

Lemma redacted_with_sink (lg : Logger) (l : MultilineLogger) (s : string) :
  redacted (with_sink lg l) s = redacted l s.
Proof. reflexivity. Qed.

Lemma redacted_ext (l1 l2 : MultilineLogger) (s : string) :
  redactor l1 = redactor l2 -> redacted l1 s = redacted l2 s.
Proof. unfold redacted. by intros ->. Qed.

Lemma log_events_ext (l1 l2 : MultilineLogger) (lines : list string) :
  redactor l1 = redactor l2 -> log_events l1 lines = log_events l2 lines.
Proof.
  intros H. unfold log_events. apply map_ext. intros s.
  by rewrite (redacted_ext l1 l2).
Qed.

Lemma commit_events_ext (w1 w2 : multilineLoggerResponseWriter) (code : Z)
    (wd : World) :
  same_writer w1 w2 -> commit_events w1 code wd = commit_events w2 code wd.
Proof.
  intros (_ & Hreq & Hid & _ & Hred). unfold commit_events.
  rewrite Hreq, Hid.
  by rewrite !(log_events_ext (rw_MultilineLogger w1) (rw_MultilineLogger w2)).
Qed.

Lemma chunk_line_ext (w1 w2 : multilineLoggerResponseWriter) (p : list byte) :
  same_writer w1 w2 -> chunk_line w1 p = chunk_line w2 p.
Proof.
  intros (_ & _ & Hid & _ & Hred). unfold chunk_line.
  by rewrite Hid, (redacted_ext _ _ _ Hred).
Qed.

Lemma same_writer_set (w1 w2 : multilineLoggerResponseWriter) (b : bool) :
  same_writer w1 w2 -> same_writer (set_wroteHeader b w1) (set_wroteHeader b w2).
Proof. intros (? & ? & ? & ? & ?). by repeat split. Qed.

Lemma run_handler_sink (h : http_Handler) (b1 b2 : multilineLoggerReadCloser)
    (w1 w2 : multilineLoggerResponseWriter) (wd : World) :
  same_body b1 b2 -> same_writer w1 w2 ->
  run_handler h b1 w1 wd = run_handler h b2 w2 wd.
Proof.
  intros Hb. revert w1 w2 wd.
  induction h as [|p k IH|k IH|f k IH|code k IH|p k IH|k IH];
    intros w1 w2 wd Hw; simpl run_handler.
  - done.
  - destruct Hb as (Hrc & Hid & Hred).
    rewrite !bind_run.
    destruct (Read_result (rc_ReadCloser b1) wd p) as [[p' n] err] eqn:Hres.
    rewrite (Read_run b1 _ _ _ _ _ Hres).
    rewrite Hrc in Hres. rewrite (Read_run b2 _ _ _ _ _ Hres).
    rewrite Hid, (redacted_ext _ _ _ Hred).
    repeat case_bool_decide; try done; by apply IH.
  - destruct Hb as (Hrc & Hid & Hred).
    rewrite !bind_run, !Close_run, Hrc. by apply IH.
  - rewrite !bind_run. by apply IH.
  - rewrite !bind_run, !WriteHeader_run, (commit_events_ext w1 w2) by done.
    apply IH. by apply same_writer_set.
  - rewrite !bind_run, !Write_run.
    rewrite (commit_events_ext w1 w2), (chunk_line_ext w1 w2) by done.
    unfold chunk_events. rewrite (chunk_line_ext w1 w2) by done.
    pose proof Hw as (Hrw & _ & _ & Hwrote & _). rewrite Hrw, Hwrote.
    destruct (Write_result _ _ p) as [n err].
    apply IH. by apply same_writer_set.
  - rewrite !bind_run, !Flush_run.
    pose proof Hw as (Hrw & _). rewrite Hrw.
    destruct (is_Flusher (rw_ResponseWriter w2)); by apply IH.
Qed.

End Runs.

(** ** Properties of the logger *)

Section Properties.
Context {rt : GoRuntime}.

(** C1 (as amended). The response status+header block is emitted once
    for each header commit, not once per exchange: a call of WriteHeader
    emits the block and forwards the commit whatever the state of the
    wrapper, so a second call emits a second block; a body write made after
    a commit emits its chunk line only, no further block. *)
Theorem header_block_per_commit (w : multilineLoggerResponseWriter)
    (code1 code2 : Z) (p : list byte) (wd : World) :
  let wd1 := add_events (commit_events w code1 wd) wd in
  WriteHeader w code1 wd = (Ok (set_wroteHeader true w), wd1)
  /\ added_events (w' ← WriteHeader w code1; WriteHeader w' code2) wd
     = commit_events w code1 wd ++ commit_events w code2 wd1
  /\ added_events (w' ← WriteHeader w code1; Write w' p) wd
     = commit_events w code1 wd ++ chunk_events w p.
Proof.
  intros wd1. split; [apply WriteHeader_run|]. split.
  - eapply added_events_run.
    erewrite bind_Ok by apply WriteHeader_run.
    rewrite WriteHeader_run. fold wd1. unfold wd1 at 2.
    rewrite add_events_app. reflexivity.
  - eapply added_events_run.
    erewrite bind_Ok by apply WriteHeader_run.
    rewrite Write_run.
    change (rw_wroteHeader (set_wroteHeader true w)) with true. cbv iota.
    rewrite !add_events_app. reflexivity.
Qed.

(** C2 (as amended). A read of the wrapped request body that transfers
    zero bytes produces no log line. A write through the wrapped response
    writer always produces one body-chunk line, whatever the chunk: for an
    empty chunk the line has an empty payload. *)
Theorem zero_read_silent_write_logged (r : multilineLoggerReadCloser)
    (p p' : list byte) (err : option error) (wd : World)
    (w : multilineLoggerResponseWriter) (q : list byte) (wd' : World) :
  Read_result (rc_ReadCloser r) wd p = (p', 0, err) ->
  Read r p wd = (Ok (p', 0, err), add_events [BodyRead p] wd)
  /\ added_events (Write w q) wd'
     = (if rw_wroteHeader w then [] else commit_events w StatusOK wd')
       ++ [chunk_line w q; WriterWrite q]
  /\ chunk_line w []
     = LoggerOutput 2
         (redacted (rw_MultilineLogger w) (body_line (rw_requestID w) "<" "")).
Proof.
  intros Hres. split; [|split].
  - by rewrite (Read_run _ _ _ _ _ _ Hres).
  - eapply added_events_run. rewrite Write_run. reflexivity.
  - reflexivity.
Qed.

(** C3. For every chunk written through the wrapped response writer, the
    logged body-chunk line carries the chunk with one trailing line feed,
    if there is one, taken off, while the bytes forwarded to the original
    response writer are the chunk as it was given, line feed included; the
    caller gets what the original writer answered. *)
Theorem Write_logs_stripped_forwards_whole (w : multilineLoggerResponseWriter)
    (p q : list byte) (b : byte) (wd : World) :
  let commit := if rw_wroteHeader w then [] else commit_events w StatusOK wd in
  let line :=
    LoggerOutput 2
      (redacted (rw_MultilineLogger w)
         (body_line (rw_requestID w) "<" (string_of_bytes (strip_newline p)))) in
  added_events (Write w p) wd = commit ++ [line; WriterWrite p]
  /\ result_of (Write w p) wd
     = Ok (set_wroteHeader true w,
           Write_result (rw_ResponseWriter w) (add_events (commit ++ [line]) wd) p)
  /\ strip_newline [] = []
  /\ strip_newline (q ++ [b]) = if bool_decide (b = LF_byte) then q else q ++ [b].
Proof.
  intros commit line. split; [|split; [|split]].
  - eapply added_events_run. rewrite Write_run. reflexivity.
  - unfold result_of. by rewrite Write_run.
  - reflexivity.
  - unfold strip_newline. rewrite reverse_app. simpl.
    by rewrite reverse_involutive.
Qed.

(** C4. In every exchange the response status+header block is emitted
    before any response body-chunk line: each chunk forwarded to the
    original writer comes right after its chunk line, and before that line
    the log holds a complete block followed by the forwarded commit. *)
Theorem block_before_chunks (l : MultilineLogger) (w : http_ResponseWriter)
    (r : http_Request) (wd : World) (pre post : list event) (p : list byte) :
  added_events (ServeHTTP l w r) wd = pre ++ WriterWrite p :: post ->
  let id := RequestIDCreator_ l wd r in
  exists a code hs c,
    pre = a ++ log_events l (response_block id (Proto r) code hs)
          ++ WriterWriteHeader code :: c
          ++ [LoggerOutput 2
                (redacted l (body_line id "<" (string_of_bytes (strip_newline p))))].
Proof.
  intros Hsplit id. unfold added_events, world_after in Hsplit.
  pose proof (ServeHTTP_run l w r wd) as Hrun. cbv zeta in Hrun. fold id in Hrun.
  rewrite Hrun in Hsplit. clear Hrun.
  destruct (run_handler_events (handler l r) (wrapped_body l r id)
              (wrapped_writer l w r id)
              (add_events
                 (log_events l (request_block id r (request_header_order l r wd)))
                 wd) eq_refl eq_refl) as (evs & Hev & Hre).
  simpl in Hre. unfold world_after in Hev.
  rewrite Hev, events_add_events, <- app_assoc, drop_app_length in Hsplit.
  apply app_split_not_in in Hsplit as (pre0 & -> & Hevs);
    [|apply WriterWrite_not_logged].
  destruct (response_events_write _ _ _ _ _ Hre _ _ _ Hevs) as [(pre' & Hpre') Hblock].
  destruct (Hblock eq_refl) as (a & code & hs & c & Hpre0).
  destruct c as [|e c _] using rev_ind.
  - exfalso. rewrite Hpre' in Hpre0.
    replace (a ++ log_events l (response_block id (Proto r) code hs)
             ++ [WriterWriteHeader code])
      with ((a ++ log_events l (response_block id (Proto r) code hs))
            ++ [WriterWriteHeader code]) in Hpre0 by (by rewrite <- app_assoc).
    apply app_inj_tail in Hpre0 as [_ Hbad]. discriminate.
  - exists (log_events l (request_block id r (request_header_order l r wd)) ++ a),
      code, hs, c.
    rewrite Hpre0 in Hpre'.
    replace (a ++ log_events l (response_block id (Proto r) code hs)
             ++ WriterWriteHeader code :: c ++ [e])
      with ((a ++ log_events l (response_block id (Proto r) code hs)
             ++ WriterWriteHeader code :: c) ++ [e]) in Hpre'
      by (by rewrite <- !app_assoc).
    apply app_inj_tail in Hpre' as [_ ->].
    rewrite Hpre0. by rewrite <- !app_assoc.
Qed.

(** C5. A call of Read on the wrapped request body returns the buffer,
    the byte count and the error of the original body's Read as they are;
    when the count n is positive the bytes p[:n] of that call are logged
    on the way, also when the read ends in an error. The original body
    keeps the contract of io.Reader: n is at most the length of p. *)
Theorem Read_transparent (r : multilineLoggerReadCloser) (p p' : list byte)
    (n : Z) (err : option error) (wd : World) :
  Read_result (rc_ReadCloser r) wd p = (p', n, err) ->
  n <= Z.of_nat (length p') ->
  result_of (Read r p) wd = Ok (p', n, err)
  /\ added_events (Read r p) wd
     = BodyRead p
       :: (if bool_decide (0 < n)
           then [LoggerOutput 2
                   (redacted (rc_MultilineLogger r)
                      (body_line (rc_requestID r) ">"
                         (string_of_bytes (take (Z.to_nat n) p'))))]
           else []).
Proof.
  intros Hres Hlen. unfold result_of.
  pose proof (Read_run _ _ _ _ _ _ Hres) as Hrun.
  rewrite (bool_decide_true (n <= _)) in Hrun by done.
  split.
  - rewrite Hrun. by case_bool_decide.
  - eapply added_events_run. rewrite Hrun. by case_bool_decide.
Qed.

(** C6. Every line goes to the sink through Output, and what the sink
    receives is the redactor applied to the whole formatted line
    (identifier, direction and payload) when a redactor is configured, and
    the line unchanged when the redactor is nil. *)
Theorem redaction_on_whole_line (stdout : Logger) (idc : RequestIDCreator)
    (h : http_Request -> http_Handler) (redact : Redactor) (l : MultilineLogger)
    (calldepth : Z) (s format : string) (v : list fmt.operand)
    (id dir chunk : string) (wd : World) :
  added_events (Output (Logged stdout idc h (Some redact)) calldepth s) wd
  = [LoggerOutput calldepth (redact s)]
  /\ added_events (Output (Logged stdout idc h None) calldepth s) wd
     = [LoggerOutput calldepth s]
  /\ added_events (Print l v) wd = added_events (Output l 2 (fmt.Sprint v)) wd
  /\ added_events (Printf l format v) wd
     = added_events (Output l 2 (fmt.Sprintf format v)) wd
  /\ added_events (Println l v) wd
     = added_events (Output l 2 (fmt.Sprintln v)) wd
  /\ added_events
       (Println (Logged stdout idc h (Some redact))
          [fmt.Str id; fmt.Str dir; fmt.Str chunk]) wd
     = [LoggerOutput 2 (redact (id +:+ " " +:+ dir +:+ " " +:+ chunk +:+ newline))].
Proof.
  repeat split; try reflexivity;
    eapply added_events_run;
    rewrite ?Output_run, ?Println_run, ?Sprintln_body; reflexivity.
Qed.

(** C7. Print, Printf and Println return nothing, whatever the sink
    answers: they do what Output does to the world and drop its result.
    Output alone returns the error of the sink. An exchange runs the same
    whatever the sink answers. *)
Theorem sink_errors_dropped (l : MultilineLogger) (calldepth : Z)
    (s format : string) (v : list fmt.operand) (lg1 lg2 : Logger)
    (w : http_ResponseWriter) (r : http_Request) (wd : World) :
  Print l v wd = (Ok tt, world_after (Output l 2 (fmt.Sprint v)) wd)
  /\ Printf l format v wd
     = (Ok tt, world_after (Output l 2 (fmt.Sprintf format v)) wd)
  /\ Println l v wd = (Ok tt, world_after (Output l 2 (fmt.Sprintln v)) wd)
  /\ result_of (Output l calldepth s) wd
     = Ok (Logger_Output_result (Logger_ l) wd calldepth (redacted l s))
  /\ ServeHTTP (with_sink lg1 l) w r wd = ServeHTTP (with_sink lg2 l) w r wd.
Proof.
  repeat split; try reflexivity.
  pose proof (ServeHTTP_run (with_sink lg1 l) w r wd) as H1.
  pose proof (ServeHTTP_run (with_sink lg2 l) w r wd) as H2.
  cbv zeta in H1, H2. rewrite H1, H2.
  apply run_handler_sink; by repeat split.
Qed.

(** C8. ServeHTTP first emits the request line
    [<id> > <METHOD> <request-target> <protocol>], then one line
    [<id> > <name>: <value>] for each value of each header, the values of
    one name in the order of its list, then the blank separator [<id> >],
    and only then hands over to the wrapped handler. The range loop of the
    runtime visits each entry of the header map once. *)
Theorem request_prologue (l : MultilineLogger) (w : http_ResponseWriter)
    (r : http_Request) (wd : World) :
  (forall w' h, range_Header w' h ≡ₚ map_to_list h) ->
  let id := RequestIDCreator_ l wd r in
  exists hs,
    hs ≡ₚ map_to_list (Header r)
    /\ ServeHTTP l w r wd
       = run_handler (handler l r) (wrapped_body l r id) (wrapped_writer l w r id)
           (add_events
              (log_events l
                 (request_line id r
                  :: flat_map (fun kv => map (header_line id ">" kv.1) kv.2) hs
                  ++ [blank_line id ">"]))
              wd)
    /\ exists rest,
         added_events (ServeHTTP l w r) wd
         = log_events l
             (request_line id r
              :: flat_map (fun kv => map (header_line id ">" kv.1) kv.2) hs
              ++ [blank_line id ">"])
           ++ rest.
Proof.
  intros Hrange id. exists (request_header_order l r wd).
  split; [apply Hrange|].
  pose proof (ServeHTTP_run l w r wd) as Hrun. cbv zeta in Hrun. fold id in Hrun.
  split; [exact Hrun|].
  destruct (run_handler_events (handler l r) (wrapped_body l r id)
              (wrapped_writer l w r id)
              (add_events
                 (log_events l (request_block id r (request_header_order l r wd)))
                 wd) eq_refl eq_refl) as (evs & Hev & _).
  exists evs. unfold added_events, world_after. rewrite Hrun.
  unfold world_after in Hev.
  rewrite Hev, events_add_events, <- app_assoc, drop_app_length. reflexivity.
Qed.

(** C9. When the first Write of an exchange comes without a WriteHeader
    before it, the wrapper commits the header with status 200: it logs the
    response line with code 200 and text OK, the header lines and the blank
    separator, forwards WriteHeader(200) to the original writer, and only
    then logs and forwards the chunk. *)
Theorem first_Write_commits_200 (w : multilineLoggerResponseWriter)
    (p : list byte) (wd : World) :
  StatusText StatusOK = "OK" ->
  rw_wroteHeader w = false ->
  let l := rw_MultilineLogger w in
  let id := rw_requestID w in
  let first := id +:+ " < " +:+ Proto (rw_request w) +:+ " 200 OK" in
  let hs := range_Header (add_events (log_events l [first]) wd) (response_header wd) in
  added_events (Write w p) wd
  = log_events l (first :: header_lines id "<" hs ++ [blank_line id "<"])
    ++ [WriterWriteHeader 200]
    ++ [chunk_line w p; WriterWrite p]
  /\ result_of (Write w p) wd
     = Ok (set_wroteHeader true w,
           Write_result (rw_ResponseWriter w)
             (add_events
                (log_events l (first :: header_lines id "<" hs ++ [blank_line id "<"])
                 ++ [WriterWriteHeader 200] ++ [chunk_line w p]) wd) p).
Proof.
  intros Hok Hfirst l id first hs.
  assert (Hline : response_line id (Proto (rw_request w)) StatusOK = first).
  { unfold response_line, first. rewrite Hok. reflexivity. }
  assert (Hcommit : commit_events w StatusOK wd
                    = log_events l (first :: header_lines id "<" hs ++ [blank_line id "<"])
                      ++ [WriterWriteHeader 200]).
  { unfold commit_events, response_block. fold l id. by rewrite Hline. }
  pose proof (Write_run w p wd) as Hrun. cbv zeta in Hrun.
  rewrite Hfirst, Hcommit in Hrun. split.
  - eapply added_events_run. rewrite Hrun. unfold add_events.
    by rewrite <- !app_assoc.
  - unfold result_of. rewrite Hrun. simpl. by rewrite <- !app_assoc.
Qed.

(** C10. Flush on the wrapped response writer never panics: when the
    original writer is a Flusher the call is forwarded to it, otherwise
    nothing happens. The wrapper has the method whatever the original
    writer is, and its embedded Flusher, which is nil and would panic if
    called, is not used. *)
Theorem Flush_never_panics (w : multilineLoggerResponseWriter) (wd : World)
    (l : MultilineLogger) (rw : http_ResponseWriter) (r : http_Request)
    (id : RequestID) :
  result_of (Flush w) wd = Ok tt
  /\ world_after (Flush w) wd
     = (if is_Flusher (rw_ResponseWriter w)
        then add_events [WriterFlush] wd
        else wd)
  /\ rw_Flusher (wrapped_writer l rw r id) = None
  /\ result_of (Flusher_Flush (rw_Flusher (wrapped_writer l rw r id))) wd = Panic.
Proof.
  unfold result_of, world_after. rewrite Flush_run. by repeat split.
Qed.

End Properties.

(** ** The properties at work on the concrete exchange *)

(** The exchange of the documentation: request line, request header,
    blank, the body chunk read, then the response block, and the answer
    logged without its line feed and forwarded with it. *)
Example ping_pong_log :
  added_events
    (ServeHTTP (rt := demo.runtime) (demo.logger demo.ping_pong) demo.writer
       demo.request)
    demo.start
  = [LoggerOutput 2 "id > GET /items?x=1 HTTP/1.1";
     LoggerOutput 2 "id > X-Key: secret";
     LoggerOutput 2 ("id >" +:+ newline);
     BodyRead demo.buffer;
     LoggerOutput 2 ("id > ping" +:+ newline);
     LoggerOutput 2 "id < HTTP/1.1 200 OK";
     LoggerOutput 2 "id < Content-Type: text/plain";
     LoggerOutput 2 ("id <" +:+ newline);
     WriterWriteHeader 200;
     LoggerOutput 2 ("id < pong" +:+ newline);
     WriterWrite demo.pong].
Proof. vm_compute. reflexivity. Qed.

(** With a redactor that puts text in upper case, every line reaches the
    sink in upper case; the bytes forwarded are untouched. *)
Example shouting_log :
  added_events
    (ServeHTTP (rt := demo.runtime) (demo.shouting_logger demo.ping_pong)
       demo.writer demo.request)
    demo.start
  = [LoggerOutput 2 "ID > GET /ITEMS?X=1 HTTP/1.1";
     LoggerOutput 2 "ID > X-KEY: SECRET";
     LoggerOutput 2 ("ID >" +:+ newline);
     BodyRead demo.buffer;
     LoggerOutput 2 ("ID > PING" +:+ newline);
     LoggerOutput 2 "ID < HTTP/1.1 200 OK";
     LoggerOutput 2 "ID < CONTENT-TYPE: TEXT/PLAIN";
     LoggerOutput 2 ("ID <" +:+ newline);
     WriterWriteHeader 200;
     LoggerOutput 2 ("ID < PONG" +:+ newline);
     WriterWrite demo.pong].
Proof. vm_compute. reflexivity. Qed.

(** A sink that fails on every write changes nothing in the exchange. *)
Example broken_sink_same_exchange :
  ServeHTTP (rt := demo.runtime)
    (with_sink demo.broken_sink (demo.logger demo.ping_pong))
    demo.writer demo.request demo.start
  = ServeHTTP (rt := demo.runtime) (demo.logger demo.ping_pong)
      demo.writer demo.request demo.start.
Proof. vm_compute. reflexivity. Qed.

(** Flush on a writer that is no Flusher does nothing; on one that is, the
    call goes through. *)
Example Flush_plain_writer :
  Flush (wrapped_writer (demo.logger demo.ping_pong) demo.plain_writer
           demo.request "id") demo.start
  = (Ok tt, demo.start)
  /\ Flush (wrapped_writer (demo.logger demo.ping_pong) demo.writer
              demo.request "id") demo.start
     = (Ok tt, mkWorld [WriterFlush] ∅).
Proof. split; reflexivity. Qed.

(** Only one line feed is taken off. *)
Example strip_newline_once :
  strip_newline (list_byte_of_string "a" ++ [LF_byte; LF_byte])
  = list_byte_of_string "a" ++ [LF_byte].
Proof. reflexivity. Qed.

(** C1, as stated, fails: a handler that calls WriteHeader twice gets the
    response block in the log twice. *)
Lemma commits_twice_two_blocks :
  let evs :=
    added_events
      (ServeHTTP (rt := demo.runtime) (demo.logger demo.commits_twice)
         demo.writer demo.request)
      demo.start in
  let block :=
    log_events (demo.logger demo.commits_twice)
      (response_block (rt := demo.runtime) "id" "HTTP/1.1" 200 []) in
  evs = log_events (demo.logger demo.commits_twice)
          (request_block "id" demo.request [("X-Key", ["secret"])])
        ++ block ++ [WriterWriteHeader 200] ++ block ++ [WriterWriteHeader 200]
  /\ occurrences block evs = 2%nat
  /\ occurrences block evs <> 1%nat.
Proof. vm_compute. repeat split. discriminate. Qed.

(** C2, as stated, fails for writes: writing an empty chunk puts a
    body-chunk line in the log. *)
Lemma empty_write_is_logged :
  added_events
    (Write (rt := demo.runtime) (demo.wrapper (demo.logger demo.writes_nothing) true) [])
    demo.start
  = [LoggerOutput 2 ("id < " +:+ newline); WriterWrite []]
  /\ added_events
       (Write (rt := demo.runtime) (demo.wrapper (demo.logger demo.writes_nothing) true) [])
       demo.start
     <> [WriterWrite []].
Proof. vm_compute. split; [reflexivity|discriminate]. Qed.

(** A read at the end of the body: zero bytes and EOF, nothing logged. *)
Lemma zero_read_silent_write_logged_witness :
  let l := demo.logger demo.ping_pong in
  let wd := mkWorld [BodyRead demo.buffer] ∅ in
  Read_result demo.body wd demo.buffer = (demo.buffer, 0, Some demo.EOF)
  /\ Read (demo.body_wrapper l demo.body) demo.buffer wd
     = (Ok (demo.buffer, 0, Some demo.EOF), add_events [BodyRead demo.buffer] wd).
Proof.
  intros l wd. split; [reflexivity|].
  apply (zero_read_silent_write_logged (rt := demo.runtime)
           (demo.body_wrapper l demo.body) demo.buffer demo.buffer
           (Some demo.EOF) wd (demo.wrapper l true) [] demo.start).
  reflexivity.
Defined.

(** The answer of the concrete exchange comes after the response block. *)
Lemma block_before_chunks_witness :
  let l := demo.logger demo.ping_pong in
  let evs :=
    added_events (ServeHTTP (rt := demo.runtime) l demo.writer demo.request)
      demo.start in
  evs = removelast evs ++ WriterWrite demo.pong :: []
  /\ exists a code hs c,
       removelast evs
       = a ++ log_events l (response_block (rt := demo.runtime) "id" "HTTP/1.1" code hs)
         ++ WriterWriteHeader code :: c
         ++ [LoggerOutput 2
               (redacted l
                  (body_line "id" "<" (string_of_bytes (strip_newline demo.pong))))].
Proof.
  intros l evs. split; [vm_compute; reflexivity|].
  apply (block_before_chunks (rt := demo.runtime) l demo.writer demo.request
           demo.start (removelast evs) [] demo.pong).
  vm_compute. reflexivity.
Defined.

(** A short read that ends in an error: the two bytes are logged, count
    and error come back as they are. *)
Lemma Read_transparent_witness :
  let l := demo.logger demo.ping_pong in
  let r := demo.body_wrapper l demo.short_body in
  let p' := list_byte_of_string "pi" ++ drop 2 demo.buffer in
  let err := Some (errorString "unexpected EOF") in
  Read_result demo.short_body demo.start demo.buffer = (p', 2, err)
  /\ 2 <= Z.of_nat (length p')
  /\ result_of (Read r demo.buffer) demo.start = Ok (p', 2, err)
  /\ added_events (Read r demo.buffer) demo.start
     = [BodyRead demo.buffer; LoggerOutput 2 ("id > pi" +:+ newline)].
Proof.
  intros l r p' err.
  assert (Hres : Read_result demo.short_body demo.start demo.buffer = (p', 2, err))
    by reflexivity.
  assert (Hlen : 2 <= Z.of_nat (length p')) by (vm_compute; discriminate).
  split; [exact Hres|]. split; [exact Hlen|].
  exact (Read_transparent r demo.buffer p' 2 err demo.start
           Hres Hlen).
Defined.

(** The prologue of the concrete exchange. *)
Lemma request_prologue_witness :
  (forall w' h, range_Header (GoRuntime := demo.runtime) w' h ≡ₚ map_to_list h)
  /\ exists hs,
       hs ≡ₚ map_to_list (Header demo.request)
       /\ exists rest,
            added_events
              (ServeHTTP (rt := demo.runtime) (demo.logger demo.ping_pong)
                 demo.writer demo.request)
              demo.start
            = log_events (demo.logger demo.ping_pong)
                (request_line "id" demo.request
                 :: flat_map (fun kv => map (header_line "id" ">" kv.1) kv.2) hs
                 ++ [blank_line "id" ">"])
              ++ rest.
Proof.
  assert (Hrange : forall w' h,
             range_Header (GoRuntime := demo.runtime) w' h ≡ₚ map_to_list h)
    by (intros w' h; reflexivity).
  split; [exact Hrange|].
  destruct (request_prologue (rt := demo.runtime) (demo.logger demo.ping_pong)
              demo.writer demo.request demo.start Hrange)
    as (hs & Hperm & _ & Hrest).
  exists hs. split; [exact Hperm|exact Hrest].
Defined.

(** The first write of the concrete exchange, with no header set. *)
Lemma first_Write_commits_200_witness :
  let w := demo.wrapper (demo.logger demo.ping_pong) false in
  StatusText (GoRuntime := demo.runtime) StatusOK = "OK"
  /\ rw_wroteHeader w = false
  /\ added_events (Write (rt := demo.runtime) w demo.pong) demo.start
     = [LoggerOutput 2 "id < HTTP/1.1 200 OK";
        LoggerOutput 2 ("id <" +:+ newline);
        WriterWriteHeader 200;
        LoggerOutput 2 ("id < pong" +:+ newline);
        WriterWrite demo.pong].
Proof.
  intros w. split; [reflexivity|]. split; [reflexivity|].
  exact (proj1 (first_Write_commits_200 (rt := demo.runtime) w demo.pong
                  demo.start eq_refl eq_refl)).
Defined.

(** ** Further properties of the exchange *)

Section Exchange.
Context {rt : GoRuntime}.

Lemma filter_wire_log_events (l : MultilineLogger) (lines : list string) :
  List.filter is_wire (log_events l lines) = [].
Proof. induction lines as [|s lines IH]; [done|]. simpl. exact IH. Qed.

Lemma wire_add_events (evs : list event) (wd : World) :
  wire (add_events evs wd) = add_events (List.filter is_wire evs) (wire wd).
Proof. unfold wire, add_events; simpl. by rewrite List.filter_app. Qed.

Lemma filter_wire_commit_events (w : multilineLoggerResponseWriter) (code : Z)
    (wd : World) :
  List.filter is_wire (commit_events w code wd) = [WriterWriteHeader code].
Proof.
  unfold commit_events. by rewrite List.filter_app, filter_wire_log_events.
Qed.

(** The handler on the wrappers, when the body keeps the contract of
    io.Reader: it comes to its end without a panic, and, when body and
    writer do not look at the log, the calls that reach them are those of
    the handler at work on them directly. *)
Lemma run_handler_wire (h : http_Handler) (b : multilineLoggerReadCloser)
    (w : multilineLoggerResponseWriter) (wd : World) :
  keeps_contract (rc_ReadCloser b) ->
  exists wd',
    run_handler h b w wd = (Ok tt, wd')
    /\ (blind_body (rc_ReadCloser b) ->
        blind_writer (rw_ResponseWriter w) ->
        wire wd'
        = world_after
            (serve_direct h (rc_ReadCloser b) (rw_ResponseWriter w)
               (rw_wroteHeader w))
            (wire wd)).
Proof.
  intros Hc. revert w wd.
  induction h as [|p k IH|k IH|f k IH|code k IH|p k IH|k IH];
    intros w wd; simpl run_handler; simpl serve_direct.
  - exists wd. by split.
  - destruct (Read_result (rc_ReadCloser b) wd p) as [[p' n] err] eqn:Hres.
    rewrite bind_run, (Read_run _ _ _ _ _ _ Hres).
    rewrite (bool_decide_true (n <= _)) by (by eapply Hc).
    assert (Hdirect : blind_body (rc_ReadCloser b) ->
              ReadCloser_Read (rc_ReadCloser b) p (wire wd)
              = (Ok (p', n, err), add_events [BodyRead p] (wire wd))).
    { intros Hb. unfold ReadCloser_Read.
      destruct (Hb wd p) as [<- _]. by rewrite Hres. }
    case_bool_decide.
    + destruct (IH p' n err w
                  (add_events
                     [BodyRead p;
                      LoggerOutput 2
                        (redacted (rc_MultilineLogger b)
                           (body_line (rc_requestID b) ">"
                              (string_of_bytes (take (Z.to_nat n) p'))))] wd))
        as (wd' & Hrun & Hwire).
      exists wd'. split; [done|]. intros Hb Hw.
      unfold world_after. erewrite bind_Ok by (by apply Hdirect).
      rewrite (Hwire Hb Hw), wire_add_events. reflexivity.
    + destruct (IH p' n err w (add_events [BodyRead p] wd)) as (wd' & Hrun & Hwire).
      exists wd'. split; [done|]. intros Hb Hw.
      unfold world_after. erewrite bind_Ok by (by apply Hdirect).
      rewrite (Hwire Hb Hw), wire_add_events. reflexivity.
  - rewrite bind_run, Close_run.
    destruct (IH (Close_result (rc_ReadCloser b) wd) w (add_events [BodyClose] wd))
      as (wd' & Hrun & Hwire).
    exists wd'. split; [done|]. intros Hb Hw.
    unfold world_after. erewrite bind_Ok.
    2:{ unfold ReadCloser_Close. destruct (Hb wd []) as [_ <-]. reflexivity. }
    rewrite (Hwire Hb Hw), wire_add_events. reflexivity.
  - rewrite bind_run.
    destruct (IH w (mkWorld (events wd) (f (response_header wd))))
      as (wd' & Hrun & Hwire).
    exists wd'. split; [done|]. intros Hb Hw.
    unfold world_after. erewrite bind_Ok by reflexivity.
    rewrite (Hwire Hb Hw). reflexivity.
  - rewrite bind_run, WriteHeader_run.
    destruct (IH (set_wroteHeader true w) (add_events (commit_events w code wd) wd))
      as (wd' & Hrun & Hwire).
    exists wd'. split; [done|]. intros Hb Hw.
    unfold world_after. erewrite bind_Ok by reflexivity.
    rewrite (Hwire Hb Hw), wire_add_events, filter_wire_commit_events.
    reflexivity.
  - rewrite bind_run, Write_run.
    destruct (Write_result (rw_ResponseWriter w)
                (add_events
                   ((if rw_wroteHeader w then [] else commit_events w StatusOK wd)
                    ++ [chunk_line w p]) wd) p) as [n err] eqn:Hres.
    destruct (IH n err (set_wroteHeader true w)
                (add_events
                   ((if rw_wroteHeader w then [] else commit_events w StatusOK wd)
                    ++ chunk_events w p) wd))
      as (wd' & Hrun & Hwire).
    exists wd'. split; [done|]. intros Hb Hw.
    rewrite (Hwire Hb Hw). clear Hwire Hrun.
    rewrite Hw, wire_add_events in Hres.
    rewrite wire_add_events.
    rewrite List.filter_app in Hres |- *.
    change (List.filter is_wire [chunk_line w p]) with (@nil event) in Hres.
    change (List.filter is_wire (chunk_events w p)) with [WriterWrite p].
    rewrite app_nil_r in Hres.
    unfold world_after.
    destruct (rw_wroteHeader w).
    + change (List.filter is_wire []) with (@nil event) in Hres |- *.
      rewrite add_events_nil in Hres.
      erewrite bind_Ok by reflexivity.
      erewrite bind_Ok.
      2:{ unfold ResponseWriter_Write. rewrite Hres. reflexivity. }
      reflexivity.
    + rewrite filter_wire_commit_events in Hres |- *.
      erewrite bind_Ok by reflexivity.
      erewrite bind_Ok.
      2:{ unfold ResponseWriter_Write. rewrite record_add_events.
          rewrite Hres. reflexivity. }
      rewrite !record_add_events, !add_events_app. reflexivity.
  - rewrite bind_run, Flush_run.
    destruct (is_Flusher (rw_ResponseWriter w)).
    + destruct (IH w (add_events [WriterFlush] wd)) as (wd' & Hrun & Hwire).
      exists wd'. split; [done|]. intros Hb Hw.
      unfold world_after. erewrite bind_Ok by reflexivity.
      rewrite (Hwire Hb Hw), wire_add_events. reflexivity.
    + destruct (IH w wd) as (wd' & Hrun & Hwire).
      exists wd'. split; [done|]. intros Hb Hw.
      unfold world_after. erewrite bind_Ok by reflexivity.
      rewrite (Hwire Hb Hw). reflexivity.
Qed.

Lemma wire_prologue (l : MultilineLogger) (lines : list string) (wd : World) :
  wire (add_events (log_events l lines) wd) = wire wd.
Proof. by rewrite wire_add_events, filter_wire_log_events, add_events_nil. Qed.

Lemma ServeHTTP_wire (l : MultilineLogger) (w : http_ResponseWriter)
    (r : http_Request) (wd : World) :
  keeps_contract (Body r) ->
  blind_body (Body r) ->
  blind_writer w ->
  wire (world_after (ServeHTTP l w r) wd)
  = world_after (serve_direct (handler l r) (Body r) w false) (wire wd).
Proof.
  intros Hc Hb Hw.
  pose proof (ServeHTTP_run l w r wd) as Hrun. cbv zeta in Hrun.
  unfold world_after at 1. rewrite Hrun.
  destruct (run_handler_wire (handler l r)
              (wrapped_body l r (RequestIDCreator_ l wd r))
              (wrapped_writer l w r (RequestIDCreator_ l wd r))
              (add_events
                 (log_events l
                    (request_block (RequestIDCreator_ l wd r) r
                       (request_header_order l r wd))) wd) Hc)
    as (wd' & -> & Hwire).
  simpl. rewrite (Hwire Hb Hw), wire_prologue. reflexivity.
Qed.



(** *** The shape of the lines *)

Lemma exchange_line_intro (l : MultilineLogger) (id : RequestID)
    (dir rest : string) :
  dir = ">" \/ dir = "<" ->
  exchange_line l id (LoggerOutput 2 (redacted l (id +:+ " " +:+ dir +:+ rest))).
Proof. intros Hdir. split; [done|]. by exists dir, rest. Qed.

Lemma header_lines_elem (id : RequestID) (dir : string)
    (hs : list (string * list string)) (s : string) :
  s ∈ header_lines id dir hs ->
  exists name value, s = header_line id dir name value.
Proof.
  unfold header_lines.
  intros ([name values] & _ & Hin)%list_elem_of_In%in_flat_map.
  apply in_map_iff in Hin as (value & <- & _). by exists name, value.
Qed.

Lemma exchange_line_header (l : MultilineLogger) (id : RequestID) (dir : string)
    (hs : list (string * list string)) :
  dir = ">" \/ dir = "<" ->
  Forall (exchange_line l id) (log_events l (header_lines id dir hs)).
Proof.
  intros Hdir. apply Forall_forall. intros e.
  unfold log_events. intros (s & -> & Hs)%list_elem_of_fmap.
  apply header_lines_elem in Hs as (name & value & ->).
  apply (exchange_line_intro l id dir (" " +:+ name +:+ ": " +:+ value) Hdir).
Qed.

Lemma exchange_line_request_block (l : MultilineLogger) (id : RequestID)
    (r : http_Request) (hs : list (string * list string)) :
  Forall (exchange_line l id) (log_events l (request_block id r hs)).
Proof.
  unfold request_block.
  change (request_line id r :: header_lines id ">" hs ++ [blank_line id ">"])
    with ([request_line id r] ++ header_lines id ">" hs ++ [blank_line id ">"]).
  rewrite !log_events_app. repeat apply Forall_app_2.
  - repeat constructor.
    apply (exchange_line_intro l id ">"
             (" " +:+ Method r +:+ " " +:+ RequestURI (URL r) +:+ " " +:+ Proto r)).
    by left.
  - apply exchange_line_header. by left.
  - repeat constructor. apply (exchange_line_intro l id ">" newline). by left.
Qed.

Lemma exchange_line_response_block (l : MultilineLogger) (id : RequestID)
    (proto : string) (code : Z) (hs : list (string * list string)) :
  Forall (exchange_line l id) (log_events l (response_block id proto code hs)).
Proof.
  unfold response_block.
  change (response_line id proto code
          :: header_lines id "<" hs ++ [blank_line id "<"])
    with ([response_line id proto code]
          ++ header_lines id "<" hs ++ [blank_line id "<"]).
  rewrite !log_events_app. repeat apply Forall_app_2.
  - repeat constructor.
    apply (exchange_line_intro l id "<"
             (" " +:+ proto +:+ " " +:+ fmt.decimal code +:+ " "
              +:+ StatusText code)).
    by right.
  - apply exchange_line_header. by right.
  - repeat constructor. apply (exchange_line_intro l id "<" newline). by right.
Qed.

Lemma response_events_lines (l : MultilineLogger) (id : RequestID)
    (proto : string) (b : bool) (evs : list event) :
  response_events l id proto b evs -> Forall (exchange_line l id) evs.
Proof.
  induction 1 as [b|b e evs He Hevs IH|b code hs evs Hevs IH|p0 evs Hevs IH].
  - constructor.
  - constructor; [|done].
    destruct e as [d s| | | | |]; try done.
    destruct He as (-> & chunk & ->).
    apply (exchange_line_intro l id ">" (" " +:+ chunk +:+ newline)). by left.
  - apply Forall_app_2; [apply exchange_line_response_block|].
    by constructor.
  - constructor; [|by constructor].
    apply (exchange_line_intro l id "<"
             (" " +:+ string_of_bytes (strip_newline p0) +:+ newline)).
    by right.
Qed.

(** X3. Every call an exchange makes on the sink has call depth 2 and
    carries, as the redactor leaves it, a line that begins with the
    identifier of the exchange, a space and one of the two direction marks
    [>] and [<]. *)
Theorem every_line_has_the_identifier (l : MultilineLogger)
    (w : http_ResponseWriter) (r : http_Request) (wd : World) :
  Forall (exchange_line l (RequestIDCreator_ l wd r))
    (added_events (ServeHTTP l w r) wd).
Proof.
  pose proof (ServeHTTP_run l w r wd) as Hrun. cbv zeta in Hrun.
  set (id := RequestIDCreator_ l wd r) in *.
  destruct (run_handler_events (handler l r) (wrapped_body l r id)
              (wrapped_writer l w r id)
              (add_events
                 (log_events l (request_block id r (request_header_order l r wd)))
                 wd) eq_refl eq_refl) as (evs & Hev & Hre).
  unfold added_events, world_after. rewrite Hrun.
  unfold world_after in Hev.
  rewrite Hev, events_add_events, <- app_assoc, drop_app_length.
  apply Forall_app_2; [apply exchange_line_request_block|].
  by apply response_events_lines in Hre.
Qed.

(** *** The header lines of a commit *)

Lemma header_lines_of_entry (id : RequestID) (dir name value : string)
    (values : list string) (hs : list (string * list string)) :
  (name, values) ∈ hs -> value ∈ values ->
  header_line id dir name value ∈ header_lines id dir hs.
Proof.
  intros Hentry Hvalue. unfold header_lines.
  apply list_elem_of_In, in_flat_map. exists (name, values).
  split; [by apply list_elem_of_In|].
  apply in_map. by apply list_elem_of_In.
Qed.

(** X4. When the range loop visits each entry of the header map once, a
    call of WriteHeader logs, between the response line and the blank
    separator, one line for each value of each response header set by
    then, the values of one name in the order of their list, and no value
    is left out; a name with an empty list gives no line. *)
Theorem response_headers_logged (w : multilineLoggerResponseWriter) (code : Z)
    (wd : World) :
  (forall w' h, range_Header w' h ≡ₚ map_to_list h) ->
  let l := rw_MultilineLogger w in
  let id := rw_requestID w in
  (exists hs,
     hs ≡ₚ map_to_list (response_header wd)
     /\ added_events (WriteHeader w code) wd
        = log_events l
            (response_line id (Proto (rw_request w)) code
             :: flat_map (fun kv => map (header_line id "<" kv.1) kv.2) hs
             ++ [blank_line id "<"])
          ++ [WriterWriteHeader code])
  /\ (forall name values value,
        response_header wd !! name = Some values ->
        value ∈ values ->
        LoggerOutput 2 (redacted l (header_line id "<" name value))
        ∈ added_events (WriteHeader w code) wd)
  /\ header_lines id "<" [("Empty", [])] = [].
Proof.
  intros Hrange l id.
  assert (Hadded : added_events (WriteHeader w code) wd = commit_events w code wd).
  { eapply added_events_run. rewrite WriteHeader_run. reflexivity. }
  rewrite Hadded. split; [|split; [|done]].
  - eexists. split; [apply Hrange|]. reflexivity.
  - intros name values value Hname Hvalue.
    unfold commit_events, response_block. fold l id.
    apply elem_of_app. left.
    apply (list_elem_of_fmap_2 (fun s => LoggerOutput 2 (redacted l s))).
    right. apply elem_of_app. left.
    apply (header_lines_of_entry id "<" name value values); [|done].
    rewrite (Hrange _ _). by apply elem_of_map_to_list.
Qed.

(** *** Commits made by writes only *)

Lemma filter_commit_log_events (l : MultilineLogger) (lines : list string) :
  List.filter is_commit (log_events l lines) = [].
Proof. induction lines as [|s lines IH]; [done|]. exact IH. Qed.

Lemma existsb_write_log_events (l : MultilineLogger) (lines : list string) :
  existsb is_write (log_events l lines) = false.
Proof. induction lines as [|s lines IH]; [done|]. exact IH. Qed.

Lemma filter_commit_commit_events (w : multilineLoggerResponseWriter) (code : Z)
    (wd : World) :
  List.filter is_commit (commit_events w code wd) = [WriterWriteHeader code].
Proof.
  unfold commit_events. by rewrite List.filter_app, filter_commit_log_events.
Qed.

Lemma existsb_write_commit_events (w : multilineLoggerResponseWriter) (code : Z)
    (wd : World) :
  existsb is_write (commit_events w code wd) = false.
Proof.
  unfold commit_events. by rewrite existsb_app, existsb_write_log_events.
Qed.

Lemma commits_of_writes_skip (committed : bool) (pre evs : list event) :
  List.filter is_commit pre = [] ->
  existsb is_write pre = false ->
  commits_of_writes committed evs ->
  commits_of_writes committed (pre ++ evs).
Proof.
  unfold commits_of_writes. intros Hc Hw Hevs.
  by rewrite List.filter_app, existsb_app, Hc, Hw.
Qed.

Lemma run_handler_commits (h : http_Handler) (b : multilineLoggerReadCloser)
    (w : multilineLoggerResponseWriter) (wd : World) :
  never_WriteHeader h ->
  exists evs,
    events (world_after (run_handler h b w) wd) = events wd ++ evs
    /\ commits_of_writes (rw_wroteHeader w) evs.
Proof.
  revert w wd.
  induction h as [|p k IH|k IH|f k IH|code k IH|p k IH|k IH];
    intros w wd Hnever; unfold world_after; simpl run_handler;
    simpl in Hnever.
  - exists []. split; [by rewrite app_nil_r|].
    unfold commits_of_writes. by destruct (rw_wroteHeader w).
  - rewrite bind_run.
    destruct (Read_result (rc_ReadCloser b) wd p) as [[p' n] err] eqn:Hres.
    rewrite (Read_run _ _ _ _ _ _ Hres).
    repeat case_bool_decide.
    + match goal with
      | |- context [run_handler _ b w (add_events ?R wd)] =>
          destruct (IH p' n err w (add_events R wd) (Hnever _ _ _))
            as (evs & Hev & Hco);
          exists (R ++ evs)
      end.
      split.
      * unfold world_after in Hev. rewrite Hev, events_add_events.
        by rewrite <- app_assoc.
      * by apply commits_of_writes_skip.
    + exists [BodyRead p]. split; [done|].
      unfold commits_of_writes. by destruct (rw_wroteHeader w).
    + destruct (IH p' n err w (add_events [BodyRead p] wd) (Hnever _ _ _))
        as (evs & Hev & Hco).
      exists ([BodyRead p] ++ evs). split.
      * unfold world_after in Hev. rewrite Hev, events_add_events.
        by rewrite <- app_assoc.
      * by apply commits_of_writes_skip.
  - rewrite bind_run, Close_run.
    destruct (IH (Close_result (rc_ReadCloser b) wd) w
                (add_events [BodyClose] wd) (Hnever _)) as (evs & Hev & Hco).
    exists ([BodyClose] ++ evs). split.
    + unfold world_after in Hev. rewrite Hev, events_add_events.
      by rewrite <- app_assoc.
    + by apply commits_of_writes_skip.
  - rewrite bind_run.
    destruct (IH w (mkWorld (events wd) (f (response_header wd))) Hnever)
      as (evs & Hev & Hco).
    exists evs. split; [apply Hev|done].
  - done.
  - rewrite bind_run, Write_run.
    destruct (Write_result _ _ p) as [n err].
    match goal with
    | |- context [run_handler (k n err) b (set_wroteHeader true w) ?wd'] =>
        destruct (IH n err (set_wroteHeader true w) wd' (Hnever _ _))
          as (evs & Hev & Hco)
    end.
    eexists. split.
    + unfold world_after in Hev. rewrite Hev, events_add_events.
      by rewrite <- app_assoc.
    + unfold commits_of_writes in *. simpl in Hco.
      rewrite !List.filter_app, !existsb_app, Hco.
      destruct (rw_wroteHeader w); [done|].
      by rewrite filter_commit_commit_events, existsb_write_commit_events.
  - rewrite bind_run, Flush_run.
    destruct (is_Flusher (rw_ResponseWriter w)).
    + destruct (IH w (add_events [WriterFlush] wd) Hnever) as (evs & Hev & Hco).
      exists ([WriterFlush] ++ evs). split.
      * unfold world_after in Hev. rewrite Hev, events_add_events.
        by rewrite <- app_assoc.
      * by apply commits_of_writes_skip.
    + destruct (IH w wd Hnever) as (evs & Hev & Hco).
      exists evs. split; [apply Hev|done].
Qed.

(** X5. In an exchange whose handler never calls WriteHeader itself, the
    header is committed at most once: when the handler writes, exactly one
    WriteHeader reaches the original writer, with status 200; when it does
    not write, none does. *)
Theorem one_commit_without_WriteHeader (l : MultilineLogger)
    (w : http_ResponseWriter) (r : http_Request) (wd : World) :
  never_WriteHeader (handler l r) ->
  let evs := added_events (ServeHTTP l w r) wd in
  List.filter is_commit evs
  = if existsb is_write evs then [WriterWriteHeader StatusOK] else [].
Proof.
  intros Hnever evs. subst evs.
  pose proof (ServeHTTP_run l w r wd) as Hrun. cbv zeta in Hrun.
  set (id := RequestIDCreator_ l wd r) in *.
  destruct (run_handler_commits (handler l r) (wrapped_body l r id)
              (wrapped_writer l w r id)
              (add_events
                 (log_events l (request_block id r (request_header_order l r wd)))
                 wd) Hnever) as (evs & Hev & Hco).
  unfold added_events, world_after. rewrite Hrun.
  unfold world_after in Hev.
  rewrite Hev, events_add_events, <- app_assoc, drop_app_length.
  apply (commits_of_writes_skip false); [|apply existsb_write_log_events|done].
  apply filter_commit_log_events.
Qed.

(** *** Lines that cannot be taken for one another *)

Lemma append_inj_l (s a b : string) : s +:+ a = s +:+ b -> a = b.
Proof.
  induction s as [|c s IH]; [done|].
  rewrite !append_String. intros H. injection H as H. by apply IH.
Qed.

(** X6. As the wrappers format them, the blank separator of a direction
    is never the line of a body chunk of that direction, whatever the
    chunk, the empty one included. *)
Theorem separator_is_no_chunk_line (id : RequestID) (dir chunk : string) :
  fmt.Sprintln [fmt.Str id; fmt.Str dir]
  <> fmt.Sprintln [fmt.Str id; fmt.Str dir; fmt.Str chunk]
  /\ blank_line id dir <> body_line id dir chunk.
Proof.
  rewrite Sprintln_blank, Sprintln_body.
  assert (H : blank_line id dir <> body_line id dir chunk); [|done].
  unfold blank_line, body_line. intros H.
  apply append_inj_l in H.
  change (" " +:+ dir +:+ newline) with (String " " (dir +:+ newline)) in H.
  change (" " +:+ dir +:+ " " +:+ chunk +:+ newline)
    with (String " " (dir +:+ " " +:+ chunk +:+ newline)) in H.
  injection H as H. apply append_inj_l in H. discriminate.
Qed.

(** *** Writes in a row *)

(** X7. A handler that writes chunks one after the other gets the
    response block once, before the first chunk and only when the header was
    not committed before, and then for each chunk, in the order of the
    writes, its line followed by the chunk forwarded. *)
Theorem writes_in_order (ps : list (list byte)) (b : multilineLoggerReadCloser)
    (w : multilineLoggerResponseWriter) (wd : World) :
  run_handler (write_all ps) b w wd
  = (Ok tt,
     add_events
       (match ps with
        | [] => []
        | _ :: _ => if rw_wroteHeader w then [] else commit_events w StatusOK wd
        end
        ++ flat_map (chunk_events w) ps)
       wd).
Proof.
  revert w wd. induction ps as [|p ps IH]; intros w wd; simpl run_handler.
  - by rewrite add_events_nil.
  - rewrite bind_run, Write_run.
    destruct (Write_result _ _ p) as [n err].
    rewrite IH, add_events_app. f_equal. f_equal.
    change (rw_wroteHeader (set_wroteHeader true w)) with true.
    rewrite <- app_assoc. f_equal.
    by destruct ps.
Qed.

End Exchange.

(** X8. The sink, the redactor, the identifier creator and the order in
    which the runtime walks header maps change the log only: two loggers
    around the same handler make the same calls on the original body and
    writer and leave the same header map, when the body keeps the contract
    of io.Reader and neither it nor the writer looks at the log. *)
Theorem only_the_log_differs (rt1 rt2 : GoRuntime) (l1 l2 : MultilineLogger)
    (w : http_ResponseWriter) (r : http_Request) (wd1 wd2 : World) :
  handler l1 r = handler l2 r ->
  keeps_contract (Body r) ->
  blind_body (Body r) ->
  blind_writer w ->
  wire wd1 = wire wd2 ->
  wire (world_after (ServeHTTP (rt := rt1) l1 w r) wd1)
  = wire (world_after (ServeHTTP (rt := rt2) l2 w r) wd2).
Proof.
  intros Hh Hc Hb Hw Hwd.
  rewrite (ServeHTTP_wire (rt := rt1)), (ServeHTTP_wire (rt := rt2)) by done.
  by rewrite Hh, Hwd.
Qed.



(** A commit with one response header set. *)
Lemma response_headers_logged_witness :
  let w := demo.wrapper (demo.logger demo.ping_pong) false in
  let wd := mkWorld [] {[ "Content-Type" := ["text/plain"] ]} in
  (forall w' h, range_Header (GoRuntime := demo.runtime) w' h ≡ₚ map_to_list h)
  /\ LoggerOutput 2 "id < Content-Type: text/plain"
     ∈ added_events (WriteHeader (rt := demo.runtime) w 404) wd.
Proof.
  intros w wd.
  assert (Hrange : forall w' h,
             range_Header (GoRuntime := demo.runtime) w' h ≡ₚ map_to_list h)
    by (intros w' h; reflexivity).
  split; [exact Hrange|].
  destruct (response_headers_logged (rt := demo.runtime) w 404 wd Hrange)
    as (_ & Hin & _).
  apply (Hin "Content-Type" ["text/plain"] "text/plain").
  - reflexivity.
  - left.
Defined.

(** The concrete exchange: its handler writes once and never calls
    WriteHeader. *)
Lemma one_commit_without_WriteHeader_witness :
  let l := demo.logger demo.ping_pong in
  never_WriteHeader (handler l demo.request)
  /\ List.filter is_commit
       (added_events (ServeHTTP (rt := demo.runtime) l demo.writer demo.request)
          demo.start)
     = [WriterWriteHeader 200].
Proof.
  intros l.
  assert (Hnever : never_WriteHeader (handler l demo.request)) by (by simpl).
  split; [exact Hnever|].
  exact (one_commit_without_WriteHeader (rt := demo.runtime) l demo.writer
           demo.request demo.start Hnever).
Defined.

(** The plain logger and the one that redacts to upper case, around the
    same handler. *)
Lemma only_the_log_differs_witness :
  let l1 := demo.logger demo.ping_pong in
  let l2 := demo.shouting_logger demo.ping_pong in
  handler l1 demo.short_request = handler l2 demo.short_request
  /\ keeps_contract demo.short_body
  /\ blind_body demo.short_body
  /\ blind_writer demo.writer
  /\ wire demo.start = wire demo.start
  /\ wire (world_after
             (ServeHTTP (rt := demo.runtime) l1 demo.writer demo.short_request)
             demo.start)
     = wire (world_after
               (ServeHTTP (rt := demo.runtime) l2 demo.writer demo.short_request)
               demo.start).
Proof.
  intros l1 l2.
  assert (Hc : keeps_contract demo.short_body).
  { intros w p p' n err H. injection H as <- <- _. simpl. lia. }
  assert (Hb : blind_body demo.short_body) by (intros w p; split; reflexivity).
  assert (Hw : blind_writer demo.writer) by (intros w p; reflexivity).
  split; [reflexivity|]. split; [exact Hc|]. split; [exact Hb|].
  split; [exact Hw|]. split; [reflexivity|].
  exact (only_the_log_differs demo.runtime demo.runtime l1 l2 demo.writer
           demo.short_request demo.start demo.start eq_refl Hc Hb Hw eq_refl).
Defined.
